(** * Sample CSV generator of the raffle spinner

    A shallow embedding of [apps/spinner-extension/samples/generate_csvs.py]:
    the two name tables, [generate_participants], [write_csv] and [main],
    together with the pieces of the Python runtime they call ([range],
    [str] with its limit on the number of digits, [str.zfill],
    [random.choice], [csv.DictWriter], [print]).

    Python integers are [Z], Python strings are [string] (a sequence of
    bytes, UTF-8 for the two non-ASCII symbols that [print] emits), the
    participant dictionaries are [gmap string string].  The random number
    generator, the directory of the script and the standard output form the
    state of a small state-and-exception monad. *)

From Stdlib Require Import ZArith NArith Lia Ascii.
From stdpp Require Import gmap strings list fin_maps.

#[local] Set Warnings "-clear-no-such-hyp".

Local Open Scope Z_scope.

(** ** Strings *)

Module Str.

Fixpoint length (s : string) : nat :=
  match s with
  | EmptyString => O
  | String _ s' => S (length s')
  end.

Fixpoint repeat (c : ascii) (n : nat) : string :=
  match n with
  | O => EmptyString
  | S n' => String c (repeat c n')
  end.

Fixpoint forallb (f : ascii -> bool) (s : string) : bool :=
  match s with
  | EmptyString => true
  | String c s' => f c && forallb f s'
  end.

Fixpoint existsb (f : ascii -> bool) (s : string) : bool :=
  match s with
  | EmptyString => false
  | String c s' => f c || existsb f s'
  end.

(** [sep.join(parts)] *)
Fixpoint join (sep : string) (parts : list string) : string :=
  match parts with
  | [] => EmptyString
  | [p] => p
  | p :: rest => p +:+ sep +:+ join sep rest
  end.

Fixpoint concat (parts : list string) : string :=
  match parts with
  | [] => EmptyString
  | p :: rest => p +:+ concat rest
  end.

End Str.

(** ** Python built-ins used by the script *)

(** [range(count)]: the integers [0 .. count-1]; empty when [count <= 0]. *)
Definition range (count : Z) : list Z :=
  map Z.of_nat (seq 0 (Z.to_nat count)).

Definition digit_char (d : N) : ascii := ascii_of_N (48 + d).

(** Decimal digits of a natural number, most significant first.  The loop
    peels one digit per round; [fuel] bounds the number of rounds and
    [N.size_nat n] (the number of binary digits) is always enough. *)
Fixpoint str_digits (fuel : nat) (n : N) (acc : string) : string :=
  let acc' := String (digit_char (n mod 10)) acc in
  match fuel with
  | O => acc'
  | S fuel' => if (n / 10 =? 0)%N then acc' else str_digits fuel' (n / 10) acc'
  end.

Definition str_N (n : N) : string := str_digits (N.size_nat n) n EmptyString.

(** The decimal notation of an integer [z]: what [str(z)] returns when it
    returns (see [str] below for the limit on the number of digits). *)
Definition py_str (z : Z) : string :=
  match z with
  | Z0 => "0"
  | Zpos p => str_N (Npos p)
  | Zneg p => String "-" (str_N (Npos p))
  end.

Definition is_sign (c : ascii) : bool :=
  (Ascii.eqb c "+" || Ascii.eqb c "-")%char.

(** [s.zfill(width)]: pad with ASCII zeros on the left up to [width]; a
    leading sign stays in front of the padding. *)
Definition zfill (s : string) (width : nat) : string :=
  let len := Str.length s in
  if (width <=? len)%nat then s
  else
    let fill := (width - len)%nat in
    match s with
    | String c rest =>
        if is_sign c then String c (Str.repeat "0" fill +:+ rest)
        else Str.repeat "0" fill +:+ s
    | EmptyString => Str.repeat "0" fill
    end.

(** [format(n, ',')]: decimal digits in groups of three. *)
Fixpoint group_thousands (rev_digits : list ascii) (k : nat) (acc : string) : string :=
  match rev_digits with
  | [] => acc
  | d :: rest =>
      match k with
      | 3%nat => group_thousands rest 1 (String d (String "," acc))
      | _ => group_thousands rest (S k) (String d acc)
      end
  end.

Fixpoint string_to_list (s : string) : list ascii :=
  match s with
  | EmptyString => []
  | String c s' => c :: string_to_list s'
  end.

Definition format_thousands (n : nat) : string :=
  group_thousands (rev (string_to_list (py_str (Z.of_nat n)))) 0 EmptyString.

(** ** The name tables *)

Definition first_names : list string := [
    "James"; "Mary"; "Robert"; "Patricia"; "John"; "Jennifer"; "Michael"; "Linda";
    "David"; "Elizabeth"; "William"; "Barbara"; "Richard"; "Susan"; "Joseph"; "Jessica";
    "Thomas"; "Sarah"; "Christopher"; "Karen"; "Charles"; "Lisa"; "Daniel"; "Nancy";
    "Matthew"; "Betty"; "Anthony"; "Helen"; "Mark"; "Sandra"; "Donald"; "Donna";
    "Steven"; "Carol"; "Kenneth"; "Ruth"; "Andrew"; "Sharon"; "Joshua"; "Michelle";
    "Kevin"; "Laura"; "Brian"; "Emily"; "George"; "Kimberly"; "Timothy"; "Deborah";
    "Ronald"; "Dorothy"; "Edward"; "Amy"; "Jason"; "Angela"; "Jeffrey"; "Ashley"
  ].

Definition last_names : list string := [
    "Smith"; "Johnson"; "Williams"; "Brown"; "Jones"; "Garcia"; "Miller"; "Davis";
    "Rodriguez"; "Martinez"; "Hernandez"; "Lopez"; "Gonzalez"; "Wilson"; "Anderson";
    "Thomas"; "Taylor"; "Moore"; "Jackson"; "Martin"; "Lee"; "Perez"; "Thompson";
    "White"; "Harris"; "Sanchez"; "Clark"; "Ramirez"; "Lewis"; "Robinson"; "Walker";
    "Young"; "Allen"; "King"; "Wright"; "Scott"; "Torres"; "Nguyen"; "Hill";
    "Flores"; "Green"; "Adams"; "Nelson"; "Baker"; "Hall"; "Rivera"; "Campbell";
    "Mitchell"; "Carter"; "Roberts"; "Gomez"; "Phillips"; "Evans"; "Turner"; "Diaz"
  ].

(** ** State and exceptions *)

Inductive exn : Type :=
  | IndexError   (* random.choice on an empty sequence *)
  | ValueError.  (* str: more digits than the limit for the conversion of
                    integers; csv.DictWriter: dict contains fields not in
                    fieldnames *)

Inductive outcome (A : Type) : Type :=
  | Returns (a : A)
  | Raises (e : exn).
Arguments Returns {A} a.
Arguments Raises {A} e.

(** The state the script runs in.  [tape] is the stream of raw values the
    random number generator is going to deliver and [cursor] the number of
    values consumed so far; every sequence of random choices is the run over
    some [tape].  [files] maps a file name in the directory of the script to
    its contents and [stdout] lists what was printed, one entry per call of
    [print]. *)
Record World : Type := mkWorld {
  tape : nat -> nat;
  cursor : nat;
  files : gmap string string;
  stdout : list string
}.

Definition M (A : Type) : Type := World -> outcome A * World.

Definition ret {A} (a : A) : M A := fun w => (Returns a, w).

Definition raise {A} (e : exn) : M A := fun w => (Raises e, w).

Definition bind {A B} (m : M A) (k : A -> M B) : M B :=
  fun w =>
    match m w with
    | (Returns a, w') => k a w'
    | (Raises e, w') => (Raises e, w')
    end.

Notation "x <- m ;; k" := (bind m (fun x => k))
  (at level 100, m at next level, right associativity).
Notation "m ;;; k" := (bind m (fun _ => k))
  (at level 100, right associativity).

(** [for x in xs: s = body(x, s)] *)
Fixpoint for_in {A S} (xs : list A) (body : A -> S -> M S) (s : S) : M S :=
  match xs with
  | [] => ret s
  | x :: xs' => s' <- body x s ;; for_in xs' body s'
  end.

(** ** [str] of an integer *)

(** [sys.get_int_max_str_digits()]: the limit of CPython (3.11 and the
    security releases of the older versions) on the number of digits in
    the conversion between [int] and [str].  4300 is the default; the
    script does not change it. *)
Definition int_max_str_digits : Z := 4300.

(** The number of decimal digits of [z]; the sign does not count. *)
Definition decimal_digits (z : Z) : nat := Str.length (str_N (Z.abs_N z)).

(** [str(z)]: the decimal notation of [z], and [ValueError] when it has
    more than [int_max_str_digits] digits. *)
Definition str (z : Z) : M string :=
  if int_max_str_digits <? Z.of_nat (decimal_digits z)
  then raise ValueError
  else ret (py_str z).

(** ** The [random] module *)

Definition advance (k : nat) (w : World) : World :=
  {| tape := tape w; cursor := (k + cursor w)%nat; files := files w; stdout := stdout w |}.

(** [random._randbelow(n)] for [n > 0]: the next raw value, reduced to
    [0 .. n-1]. *)
Definition randbelow (n : nat) : M nat :=
  fun w => (Returns (tape w (cursor w) `mod` n)%nat, advance 1 w).

(** [random.choice(seq)] *)
Definition choice (seq : list string) : M string :=
  match seq with
  | [] => raise IndexError
  | _ =>
      k <- randbelow (length seq) ;;
      match seq !! k with
      | Some x => ret x
      | None => raise IndexError
      end
  end.

(** ** [generate_participants] *)

(** The default [start_ticket=1] of the Python signature is not modelled:
    every call passes both arguments. *)
Definition generate_participants (count : Z) (start_ticket : Z)
  : M (list (gmap string string)) :=
  for_in (range count)
    (fun i participants =>
       first <- choice first_names ;;
       last <- choice last_names ;;
       number <- str (start_ticket + i) ;;
       last_number <- str (start_ticket + count - 1) ;;
       let ticket := zfill number (Str.length last_number) in
       ret (participants ++
            [ {[ "first" := first; "last" := last; "ticket_number" := ticket ]} ]))
    [].

(** ** The [csv] module: writing

    [csv.writer] with the default dialect ([excel]): delimiter [,], the double
    quote as quote character, [doublequote], line terminator CR LF, [QUOTE_MINIMAL],
    no escape character. *)

Definition delimiter : ascii := ",".
Definition quotechar : ascii := "034".
Definition CR : ascii := "013".
Definition LF : ascii := "010".
Definition lineterminator : string := String CR (String LF EmptyString).

(** The characters for which the writer switches to a quoted field. *)
Definition special (c : ascii) : bool :=
  Ascii.eqb c delimiter || Ascii.eqb c quotechar
  || Str.existsb (Ascii.eqb c) lineterminator.

(** First pass of [join_append_data]: does the field have to be quoted? *)
Definition field_quoted (field : string) : bool := Str.existsb special field.

(** Second pass of [join_append_data]: the characters of the field, a quote
    character written twice. *)
Fixpoint field_data (field : string) : string :=
  match field with
  | EmptyString => EmptyString
  | String c rest =>
      if Ascii.eqb c quotechar then String quotechar (String c (field_data rest))
      else String c (field_data rest)
  end.

(** [join_append]: the delimiter unless this is the first field of the
    record, then the field, between quote characters when quoted. *)
Definition join_append (rec : string) (num_fields : nat) (field : string) : string :=
  let rec1 := if (0 <? num_fields)%nat then rec +:+ String delimiter EmptyString else rec in
  if field_quoted field
  then rec1 +:+ String quotechar (field_data field) +:+ String quotechar EmptyString
  else rec1 +:+ field_data field.

Fixpoint join_row (rec : string) (num_fields : nat) (row : list string) : string :=
  match row with
  | [] => rec
  | field :: rest => join_row (join_append rec num_fields field) (S num_fields) rest
  end.

(** The line that [writer.writerow(row)] hands to [f.write]: a record that
    consists of one empty field is written as a pair of quotes. *)
Definition writerow (row : list string) : string :=
  let rec := join_row EmptyString 0 row in
  let rec' :=
    if (0 <? length row)%nat && (Str.length rec =? 0)%nat
    then String quotechar (String quotechar EmptyString)
    else rec in
  rec' +:+ lineterminator.

(** [dict(pairs)]: later pairs overwrite earlier ones. *)
Definition dict (pairs : list (string * string)) : gmap string string :=
  foldl (fun d kv => <[kv.1 := kv.2]> d) ∅ pairs.

Definition fieldnames : list string := ["first"; "last"; "ticket_number"].

(** [DictWriter._dict_to_list] with [extrasaction='raise'] and
    [restval='']. *)
Definition dict_to_list (rowdict : gmap string string) : M (list string) :=
  let wrong_fields : gset string := dom rowdict ∖ list_to_set fieldnames in
  if decide (wrong_fields = ∅)
  then ret (map (fun key => default EmptyString (rowdict !! key)) fieldnames)
  else raise ValueError.

(** ** Files and standard output

    Failures of the file system ([OSError] from [open] or [write]) are
    outside the model: a file can always be created and written. *)

(** [open(path, 'w', newline='')]: the file is created or truncated. *)
Definition open_w (path : string) : M unit :=
  fun w => (Returns tt,
            {| tape := tape w; cursor := cursor w;
               files := <[path := EmptyString]> (files w); stdout := stdout w |}).

(** [f.write(data)]; with [newline=''] the data is written untranslated. *)
Definition file_write (path : string) (data : string) : M unit :=
  fun w => (Returns tt,
            {| tape := tape w; cursor := cursor w;
               files := <[path := default EmptyString (files w !! path) +:+ data]> (files w);
               stdout := stdout w |}).

Definition print (msg : string) : M unit :=
  fun w => (Returns tt,
            {| tape := tape w; cursor := cursor w; files := files w;
               stdout := stdout w ++ [msg] |}).

Definition writeheader (path : string) : M unit :=
  row <- dict_to_list (dict (zip fieldnames fieldnames)) ;;
  file_write path (writerow row).

Definition writerows (path : string) (rowdicts : list (gmap string string)) : M unit :=
  for_in rowdicts
    (fun rowdict _ =>
       row <- dict_to_list rowdict ;;
       file_write path (writerow row))
    tt.

(** ** [write_csv] *)

(** Files are named relative to the directory of the script
    ([Path(__file__).parent / filename]).  When an exception leaves the
    [with] block the file is closed with what was written so far. *)
Definition write_csv (filename : string) (participants : list (gmap string string))
  : M unit :=
  let output_path := filename in
  open_w output_path ;;;
  writeheader output_path ;;;
  writerows output_path participants ;;;
  print ("✅ Generated " +:+ filename +:+ ": "
         +:+ format_thousands (length participants) +:+ " entries").

(** ** [main] *)

Definition main : M unit :=
  participants_5k <- generate_participants 5000 10001 ;;
  write_csv "raffle-5k.csv" participants_5k ;;;
  participants_10k <- generate_participants 10000 20001 ;;
  write_csv "raffle-10k.csv" participants_10k ;;;
  participants_25k <- generate_participants 25000 50001 ;;
  write_csv "raffle-25k.csv" participants_25k ;;;
  participants_50k <- generate_participants 50000 100001 ;;
  write_csv "raffle-50k.csv" participants_50k ;;;
  participants_100k <- generate_participants 100000 200001 ;;
  write_csv "raffle-100k.csv" participants_100k ;;;
  print (String LF "🎉 All sample CSV files generated successfully!") ;;;
  print "Files are located in: apps/spinner-extension/samples/".

(** ** The [csv] module: reading *)

(** Modelled from the spec: the repository only writes CSV files, the reader
    that the round-trip property of the specification parses them with is
    not part of it.  What follows is the reader of the dialect that
    [write_csv] writes: the state machine of [csv.reader] (not strict, no
    escape character) run over the text of the file, and [csv.DictReader]
    on top of it, which takes the first row as the field names. *)
Inductive reader_state : Type :=
  | START_RECORD
  | START_FIELD
  | IN_FIELD
  | IN_QUOTED_FIELD
  | QUOTE_IN_QUOTED_FIELD
  | EAT_CRNL.

(** Modelled from the spec: the reader's state, the field being read and
    the fields of the record read so far. *)
Record reader : Type := mkReader {
  state : reader_state;
  field : string;
  fields : list string
}.

(** Modelled from the spec: a line break is a carriage return or a line
    feed. *)
Definition is_newline (c : ascii) : bool := Ascii.eqb c CR || Ascii.eqb c LF.

(** Modelled from the spec: the character [c] is added to the field. *)
Definition parse_add_char (r : reader) (c : ascii) (st : reader_state) : reader :=
  {| state := st; field := field r +:+ String c EmptyString; fields := fields r |}.

(** Modelled from the spec: the field is complete and joins the record. *)
Definition parse_save_field (r : reader) (st : reader_state) : reader :=
  {| state := st; field := EmptyString; fields := fields r ++ [field r] |}.

(** Modelled from the spec: the reader in front of a new record. *)
Definition parse_reset (st : reader_state) : reader :=
  {| state := st; field := EmptyString; fields := [] |}.

(** Modelled from the spec: the state after a record ended at the line
    break [c]; behind a carriage return a line feed still belongs to the same
    line break. *)
Definition after_newline (c : ascii) : reader_state :=
  if Ascii.eqb c CR then EAT_CRNL else START_RECORD.

(** Modelled from the spec: the record is complete and handed out. *)
Definition end_record (r : reader) (c : ascii) : reader * option (list string) :=
  (parse_reset (after_newline c), Some (fields r)).

(** Modelled from the spec: one step of the reader.  The second component
    is the record that the character completes, if any. *)
Definition parse_process_char (r : reader) (c : ascii)
  : reader * option (list string) :=
  let start_field (r : reader) :=
    if is_newline c then end_record (parse_save_field r START_RECORD) c
    else if Ascii.eqb c quotechar then
      ({| state := IN_QUOTED_FIELD; field := field r; fields := fields r |}, None)
    else if Ascii.eqb c delimiter then (parse_save_field r START_FIELD, None)
    else (parse_add_char r c IN_FIELD, None) in
  let start_record (r : reader) :=
    if is_newline c then end_record r c else start_field r in
  match state r with
  | START_RECORD => start_record r
  | EAT_CRNL =>
      if Ascii.eqb c LF then (parse_reset START_RECORD, None) else start_record r
  | START_FIELD => start_field r
  | IN_FIELD =>
      if is_newline c then end_record (parse_save_field r START_RECORD) c
      else if Ascii.eqb c delimiter then (parse_save_field r START_FIELD, None)
      else (parse_add_char r c IN_FIELD, None)
  | IN_QUOTED_FIELD =>
      if Ascii.eqb c quotechar then
        ({| state := QUOTE_IN_QUOTED_FIELD; field := field r; fields := fields r |}, None)
      else (parse_add_char r c IN_QUOTED_FIELD, None)
  | QUOTE_IN_QUOTED_FIELD =>
      if Ascii.eqb c quotechar then (parse_add_char r c IN_QUOTED_FIELD, None)
      else if Ascii.eqb c delimiter then (parse_save_field r START_FIELD, None)
      else if is_newline c then end_record (parse_save_field r START_RECORD) c
      else (parse_add_char r c IN_FIELD, None)
  end.

(** Modelled from the spec: the records of a text.  At the end of the text
    a record that has begun is completed. *)
Fixpoint reader_rows (r : reader) (text : string) : list (list string) :=
  match text with
  | EmptyString =>
      match state r with
      | START_RECORD | EAT_CRNL => []
      | _ => [fields r ++ [field r]]
      end
  | String c rest =>
      match parse_process_char r c with
      | (r', Some row) => row :: reader_rows r' rest
      | (r', None) => reader_rows r' rest
      end
  end.

(** Modelled from the spec: [csv.reader] over the text of a file. *)
Definition csv_reader (text : string) : list (list string) :=
  reader_rows (parse_reset START_RECORD) text.

(** Modelled from the spec: the dictionary of a row.  A row with more or
    fewer fields than there are field names has no dictionary with string
    values ([restkey], [restval]); the result is [None] then. *)
Definition row_dict (names row : list string) : option (gmap string string) :=
  if (length row =? length names)%nat then Some (dict (zip names row)) else None.

(** Modelled from the spec: [csv.DictReader].  The first row gives the
    field names, empty rows are skipped, every other row becomes a
    dictionary. *)
Definition DictReader (text : string) : option (list (gmap string string)) :=
  match csv_reader text with
  | [] => Some []
  | names :: rows =>
      mapM (row_dict names) (filter (fun row => row <> []) rows)
  end.

(** * Notions of the specification *)

(** ** Ticket numbers *)

(** The [ticket_number] entries of a batch, in the order of the batch. *)
Definition ticket_numbers (participants : list (gmap string string))
  : list (option string) :=
  map (fun p => p !! "ticket_number") participants.

Definition is_digit (c : ascii) : bool :=
  ((48 <=? N_of_ascii c) && (N_of_ascii c <=? 57))%N.

Definition digit_value (c : ascii) : Z := Z.of_N (N_of_ascii c) - 48.

Fixpoint digits_value (acc : Z) (s : string) : option Z :=
  match s with
  | EmptyString => Some acc
  | String c s' =>
      if is_digit c then digits_value (10 * acc + digit_value c) s' else None
  end.

(** The integer that a ticket number denotes: decimal digits, leading
    zeros allowed, behind an optional minus sign. *)
Definition ticket_value (s : string) : option Z :=
  match s with
  | EmptyString => None
  | String c s' =>
      if Ascii.eqb c "-" then
        match s' with
        | EmptyString => None
        | _ => Z.opp <$> digits_value 0 s'
        end
      else digits_value 0 s
  end.

(** An integer that [str] converts: at most [int_max_str_digits] decimal
    digits. *)
Definition printable (z : Z) : Prop := Z.abs z < 10 ^ int_max_str_digits.

(** A batch all of whose ticket numbers [str] converts: no round at all, or
    the first and the last ticket are [printable] (those between them then
    are as well). *)
Definition printable_range (count start_ticket : Z) : Prop :=
  count <= 0 \/ (printable start_ticket /\ printable (start_ticket + count - 1)).

(** The decimal notation of [z] padded with zeros to [width] characters:
    the sign if [z] is negative, then as many zeros as are missing, then
    the digits of [z]. *)
Definition zero_padded (z : Z) (width : nat) : string :=
  let sign := if z <? 0 then "-" else EmptyString in
  let digits := str_N (Z.abs_N z) in
  sign +:+ Str.repeat "0" (width - Str.length sign - Str.length digits)
       +:+ digits.

(** The characters of a ticket number: decimal digits and the sign. *)
Definition ticket_char (c : ascii) : bool := is_digit c || Ascii.eqb c "-".

(** The name that [random.choice] takes from a table for the raw random
    value [raw]. *)
Definition pick (names : list string) (raw : nat) : string :=
  default EmptyString (names !! (raw `mod` length names)%nat).

(** The record of round [i] of [generate_participants count start_ticket]
    when the batch starts in the state [w]: round [i] consumes the random
    values [2 * i] and [2 * i + 1] behind the cursor. *)
Definition participant_at (w : World) (count start_ticket : Z) (i : nat)
  : gmap string string :=
  {[ "first" := pick first_names (tape w (2 * i + cursor w)%nat);
     "last" := pick last_names (tape w (S (2 * i + cursor w))%nat);
     "ticket_number" :=
       zfill (py_str (start_ticket + Z.of_nat i))
             (Str.length (py_str (start_ticket + count - 1))) ]}.

Definition batch_at (w : World) (count start_ticket : Z)
  : list (gmap string string) :=
  map (participant_at w count start_ticket) (seq 0 (Z.to_nat count)).

(** ** The file format *)

(** A field in the style of RFC 4180: as it is, unless it contains a comma,
    a double quote or a line break; then between double quotes, with every
    double quote of the field written twice. *)
Definition needs_quotes (c : ascii) : bool :=
  Ascii.eqb c "," || Ascii.eqb c "034" || Ascii.eqb c "013" || Ascii.eqb c "010".

Fixpoint double_quotes (s : string) : string :=
  match s with
  | EmptyString => EmptyString
  | String c s' =>
      if Ascii.eqb c "034" then String "034" (String "034" (double_quotes s'))
      else String c (double_quotes s')
  end.

Definition rfc4180_field (s : string) : string :=
  if Str.existsb needs_quotes s
  then String "034" (double_quotes s +:+ String "034" EmptyString)
  else s.

Definition rfc4180_line (row : list string) : string :=
  Str.join "," (map rfc4180_field row) +:+ String "013" (String "010" EmptyString).

(** The three fields of a participant record, a missing one empty. *)
Definition participant_fields (p : gmap string string) : list string :=
  [ default EmptyString (p !! "first");
    default EmptyString (p !! "last");
    default EmptyString (p !! "ticket_number") ].

(** The text of a file with the header and one line per record. *)
Definition csv_text (participants : list (gmap string string)) : string :=
  Str.concat (rfc4180_line ["first"; "last"; "ticket_number"]
              :: map (fun p => rfc4180_line (participant_fields p)) participants).

(** A record that [csv.DictWriter] accepts: no keys but the field names. *)
Definition writable (p : gmap string string) : Prop :=
  dom p ⊆ ({[ "first"; "last"; "ticket_number" ]} : gset string).

(** The records that are written before the first one that is not accepted. *)
Fixpoint accepted (participants : list (gmap string string))
  : list (gmap string string) :=
  match participants with
  | [] => []
  | p :: rest => if decide (writable p) then p :: accepted rest else []
  end.

(** The state in which the file [filename] has the contents [text]. *)
Definition written (w : World) (filename text : string) : World :=
  {| tape := tape w; cursor := cursor w;
     files := <[filename := text]> (files w); stdout := stdout w |}.

(** The state after [msg] was printed. *)
Definition printed (w : World) (msg : string) : World :=
  {| tape := tape w; cursor := cursor w; files := files w;
     stdout := stdout w ++ [msg] |}.

Definition generated_message (filename : string) (entries : nat) : string :=
  "✅ Generated " +:+ filename +:+ ": " +:+ format_thousands entries +:+ " entries".

(** The record that reading back a line of [p] gives: the three fields of
    [p] under the three field names. *)
Definition read_back (p : gmap string string) : gmap string string :=
  dict (zip ["first"; "last"; "ticket_number"] (participant_fields p)).

(** ** The batch configuration *)

Definition batches : list (string * Z * Z) := [
    ("raffle-5k.csv", 5000, 10001);
    ("raffle-10k.csv", 10000, 20001);
    ("raffle-25k.csv", 25000, 50001);
    ("raffle-50k.csv", 50000, 100001);
    ("raffle-100k.csv", 100000, 200001)
  ].

Definition last_ticket (batch : string * Z * Z) : Z :=
  let '(_, count, start_ticket) := batch in start_ticket + count - 1.

Definition run_batch (batch : string * Z * Z) : M unit :=
  let '(filename, count, start_ticket) := batch in
  participants <- generate_participants count start_ticket ;;
  write_csv filename participants.

Definition batch_driver (table : list (string * Z * Z)) : M unit :=
  for_in table (fun batch _ => run_batch batch) tt ;;;
  print (String LF "🎉 All sample CSV files generated successfully!") ;;;
  print "Files are located in: apps/spinner-extension/samples/".

(** The state after one batch: two random values consumed per record, the
    file written, the line for the operator printed. *)
Definition after_batch (w : World) (batch : string * Z * Z) : World :=
  let '(filename, count, start_ticket) := batch in
  printed
    (written (advance (2 * Z.to_nat count) w) filename
             (csv_text (batch_at w count start_ticket)))
    (generated_message filename (Z.to_nat count)).

(** ** A state to run examples in *)

Definition world0 : World :=
  {| tape := fun k => (7 * k + 3)%nat; cursor := 0; files := ∅; stdout := [] |}.


(** ** Further notions *)

(** A record with the three keys of a participant and no other. *)
Definition participant_record (p : gmap string string) : Prop :=
  dom p = ({[ "first"; "last"; "ticket_number" ]} : gset string).

(** The line of a record without any quoting: the three fields between
    commas. *)
Definition plain_line (p : gmap string string) : string :=
  default EmptyString (p !! "first") +:+ "," +:+
  default EmptyString (p !! "last") +:+ "," +:+
  default EmptyString (p !! "ticket_number") +:+ lineterminator.

(** The names of a batch, in the order of the batch. *)
Definition participant_names (participants : list (gmap string string))
  : list (option string * option string) :=
  map (fun p => (p !! "first", p !! "last")) participants.

(** What [write_csv] sees of a record: whether all its keys are field
    names, and its three fields. *)
Definition same_fields (p q : gmap string string) : Prop :=
  (writable p <-> writable q) /\ participant_fields p = participant_fields q.

(** * Properties *)

(** ** The model at work *)

Example py_str_examples :
  (py_str 10001, py_str 0, py_str (-5), py_str 300000)
  = ("10001", "0", "-5", "300000").
Proof. reflexivity. Qed.

Example zfill_examples :
  (zfill "42" 5, zfill "-5" 4, zfill "+7" 1, zfill "12345" 3)
  = ("00042", "-005", "+7", "12345").
Proof. reflexivity. Qed.

Example format_thousands_examples :
  (format_thousands 123, format_thousands 5000, format_thousands 100000)
  = ("123", "5,000", "100,000").
Proof. by vm_compute. Qed.

Example generate_participants_example :
  generate_participants 3 10001 world0
  = (Returns
       [ {[ "first" := "Patricia"; "last" := "Hernandez"; "ticket_number" := "10001" ]};
         {[ "first" := "Sarah"; "last" := "Harris"; "ticket_number" := "10002" ]};
         {[ "first" := "Donna"; "last" := "Hill"; "ticket_number" := "10003" ]} ],
     advance 6 world0).
Proof. reflexivity. Qed.

Example write_csv_example :
  let run := (participants <- generate_participants 2 99 ;;
              write_csv "t.csv" participants) world0 in
  run.1 = Returns tt
  /\ files run.2 !! "t.csv"
     = Some ("first,last,ticket_number" +:+ lineterminator
             +:+ "Patricia,Hernandez,099" +:+ lineterminator
             +:+ "Sarah,Harris,100" +:+ lineterminator)
  /\ stdout run.2 = ["✅ Generated t.csv: 2 entries"].
Proof. by vm_compute. Qed.

(** A record with a key that is no field name stops the writer: the lines
    before it are in the file, nothing is printed. *)
Example write_csv_extra_key :
  let run := write_csv "t.csv"
               [ {[ "first" := "Ann" ]}; {[ "zip" := "1" ]}; {[ "last" := "Lee" ]} ]
               world0 in
  run.1 = Raises ValueError
  /\ files run.2 !! "t.csv"
     = Some ("first,last,ticket_number" +:+ lineterminator
             +:+ "Ann,," +:+ lineterminator)
  /\ stdout run.2 = [].
Proof. by vm_compute. Qed.

Example csv_reader_example :
  csv_reader ("a,b" +:+ lineterminator
              +:+ String quotechar ("x,y" +:+ String quotechar
                    (String quotechar ("z" +:+ String quotechar (",," +:+ lineterminator)))))
  = [ ["a"; "b"]; ["x,y" +:+ String quotechar "z"; EmptyString; EmptyString] ].
Proof. reflexivity. Qed.

(** ** Strings *)

Section StringFacts.

Implicit Types s t u : string.

Lemma string_app_nil_l s : EmptyString +:+ s = s.
Proof. reflexivity. Qed.

Lemma string_app_cons c s t : String c s +:+ t = String c (s +:+ t).
Proof. reflexivity. Qed.

Lemma string_app_nil_r s : s +:+ EmptyString = s.
Proof. induction s as [|c s IH]; [done | by rewrite string_app_cons, IH]. Qed.

Lemma string_app_assoc s t u : (s +:+ t) +:+ u = s +:+ t +:+ u.
Proof. induction s as [|c s IH]; [done | by rewrite !string_app_cons, IH]. Qed.

Lemma string_length_app s t : Str.length (s +:+ t) = (Str.length s + Str.length t)%nat.
Proof. induction s as [|c s IH]; [done | by rewrite string_app_cons; simpl; rewrite IH]. Qed.

Lemma string_length_repeat c n : Str.length (Str.repeat c n) = n.
Proof. induction n as [|n IH]; simpl; [done | by rewrite IH]. Qed.

Lemma string_forallb_app f s t :
  Str.forallb f (s +:+ t) = Str.forallb f s && Str.forallb f t.
Proof.
  induction s as [|c s IH]; [done |].
  rewrite string_app_cons. simpl. by rewrite IH, andb_assoc.
Qed.

Lemma string_forallb_repeat f c n : f c = true -> Str.forallb f (Str.repeat c n) = true.
Proof. intros Hc. induction n as [|n IH]; simpl; [done | by rewrite Hc, IH]. Qed.

Lemma string_existsb_forallb f s :
  Str.existsb f s = negb (Str.forallb (fun c => negb (f c)) s).
Proof.
  induction s as [|c s IH]; simpl; [done |].
  rewrite IH. by destruct (f c).
Qed.

Lemma string_forallb_impl (f g : ascii -> bool) s :
  (forall c, f c = true -> g c = true) ->
  Str.forallb f s = true -> Str.forallb g s = true.
Proof.
  intros Hfg. induction s as [|c s IH]; simpl; [done |].
  intros [Hc Hs]%andb_true_iff. rewrite (Hfg _ Hc). by apply IH.
Qed.

End StringFacts.

(** ** Decimal notation *)

Section Decimal.

Local Open Scope N_scope.

Lemma size_nat_bound n : n < 2 ^ N.of_nat (N.size_nat n).
Proof.
  destruct n as [|p]; [done |].
  simpl N.size_nat. induction p as [p IH|p IH|]; simpl Pos.size_nat.
  - rewrite Nat2N.inj_succ, N.pow_succ_r'. lia.
  - rewrite Nat2N.inj_succ, N.pow_succ_r'. lia.
  - done.
Qed.

Lemma str_digits_acc fuel n acc :
  str_digits fuel n acc = str_digits fuel n EmptyString +:+ acc.
Proof.
  revert n acc. induction fuel as [|fuel IH]; intros n acc; simpl; [done |].
  destruct (n / 10 =? 0); [done |].
  rewrite (IH _ (String _ acc)), (IH _ (String _ EmptyString)).
  by rewrite string_app_assoc.
Qed.

Lemma str_digits_fuel f1 f2 n acc :
  n < 2 ^ N.of_nat f1 -> n < 2 ^ N.of_nat f2 ->
  str_digits f1 n acc = str_digits f2 n acc.
Proof.
  revert f2 n acc. induction f1 as [|f1 IH]; intros f2 n acc H1 H2.
  - assert (n = 0) as -> by (simpl in H1; lia).
    by destruct f2.
  - destruct f2 as [|f2].
    + assert (n = 0) as -> by (simpl in H2; lia). done.
    + simpl. destruct (n / 10 =? 0) eqn:Hq; [done |].
      rewrite Nat2N.inj_succ, N.pow_succ_r' in H1, H2.
      apply IH; (apply N.Div0.div_lt_upper_bound; lia).
Qed.

Lemma str_N_small n : n < 10 -> str_N n = String (digit_char n) EmptyString.
Proof.
  intros Hn. unfold str_N.
  assert (n / 10 = 0) as Hq by (by apply N.div_small).
  destruct (N.size_nat n) as [|f]; simpl; rewrite ?Hq, ?N.mod_small; done.
Qed.

Lemma str_N_step n :
  10 <= n ->
  str_N n = str_N (n / 10) +:+ String (digit_char (n mod 10)) EmptyString.
Proof.
  intros Hn. unfold str_N.
  pose proof (size_nat_bound n) as Hb.
  destruct (N.size_nat n) as [|f] eqn:Hf; [simpl in Hb; lia |].
  simpl. assert (n / 10 <> 0) as Hq.
  { intros Hq. apply N.div_small_iff in Hq; lia. }
  apply N.eqb_neq in Hq. rewrite Hq.
  rewrite str_digits_acc. f_equal.
  apply str_digits_fuel; [| apply size_nat_bound].
  rewrite Nat2N.inj_succ, N.pow_succ_r' in Hb.
  apply N.Div0.div_lt_upper_bound. lia.
Qed.

(** Induction along the decimal digits of a number. *)
Lemma decimal_ind (P : N -> Prop) :
  (forall n, n < 10 -> P n) ->
  (forall n, 10 <= n -> P (n / 10) -> P n) ->
  forall n, P n.
Proof.
  intros Hsmall Hstep n.
  induction n as [n IH] using (well_founded_induction N.lt_wf_0).
  destruct (N.lt_ge_cases n 10) as [Hn|Hn]; [by apply Hsmall |].
  apply Hstep; [done |]. apply IH. apply N.div_lt; lia.
Qed.

End Decimal.

Section DecimalValue.

Local Open Scope N_scope.

Lemma N_of_digit_char d : d < 10 -> N_of_ascii (digit_char d) = 48 + d.
Proof. intros Hd. unfold digit_char. apply N_ascii_embedding. lia. Qed.

Lemma is_digit_digit_char d : d < 10 -> is_digit (digit_char d) = true.
Proof.
  intros Hd. unfold is_digit. rewrite N_of_digit_char by done.
  apply andb_true_iff. split; apply N.leb_le; lia.
Qed.

Lemma digit_value_digit_char d : d < 10 -> digit_value (digit_char d) = Z.of_N d.
Proof. intros Hd. unfold digit_value. rewrite N_of_digit_char by done. lia. Qed.

Lemma str_N_digits n : Str.forallb is_digit (str_N n) = true.
Proof.
  induction n as [n Hn|n Hn IH] using decimal_ind.
  - rewrite str_N_small by done. simpl. by rewrite is_digit_digit_char.
  - rewrite str_N_step, string_forallb_app, IH by done. simpl.
    rewrite is_digit_digit_char; [done |]. by apply N.mod_lt.
Qed.

Lemma str_N_nonempty n : str_N n <> EmptyString.
Proof.
  destruct (N.lt_ge_cases n 10) as [Hn|Hn].
  - by rewrite str_N_small.
  - rewrite str_N_step by done. by destruct (str_N (n / 10)).
Qed.

(** The length of the decimal notation is the number of decimal digits. *)
Lemma str_N_length n :
  let len := N.of_nat (Str.length (str_N n)) in
  n < 10 ^ len /\ (n <> 0 -> 10 ^ len <= 10 * n).
Proof.
  induction n as [n Hn|n Hn IH] using decimal_ind; cbv zeta in *.
  - rewrite str_N_small by done. simpl Str.length.
    change (10 ^ N.of_nat 1) with 10. lia.
  - rewrite str_N_step, string_length_app by done. simpl Str.length.
    rewrite Nat2N.inj_add. change (N.of_nat 1) with 1.
    rewrite N.add_1_r, N.pow_succ_r'.
    destruct IH as [IHu IHl].
    pose proof (N.Div0.div_mod n 10) as Hdiv.
    pose proof (N.mod_lt n 10 ltac:(lia)) as Hmod.
    assert (n / 10 <> 0) as Hq.
    { intros Hq. apply N.div_small_iff in Hq; lia. }
    specialize (IHl Hq).
    generalize dependent (10 ^ N.of_nat (Str.length (str_N (n / 10)))).
    generalize dependent (n / 10). generalize dependent (n `mod` 10).
    intros; lia.
Qed.

Lemma str_N_length_mono a b :
  a <> 0 -> a <= b -> (Str.length (str_N a) <= Str.length (str_N b))%nat.
Proof.
  intros Ha Hab.
  destruct (str_N_length a) as [_ Hal]. destruct (str_N_length b) as [Hbu _].
  specialize (Hal Ha).
  destruct (Nat.le_gt_cases (Str.length (str_N a)) (Str.length (str_N b)))
    as [Hle|Hgt]; [done | exfalso].
  assert (10 ^ N.succ (N.of_nat (Str.length (str_N b)))
          <= 10 ^ N.of_nat (Str.length (str_N a))) as Hpow.
  { apply N.pow_le_mono_r; lia. }
  rewrite N.pow_succ_r' in Hpow. lia.
Qed.

End DecimalValue.

Section TicketValue.

Lemma digits_value_app acc s t :
  digits_value acc (s +:+ t) = digits_value acc s ≫= fun a => digits_value a t.
Proof.
  revert acc. induction s as [|c s IH]; intros acc; [done |].
  rewrite string_app_cons. simpl. destruct (is_digit c); [apply IH | done].
Qed.

Lemma digits_value_str_N n : digits_value 0 (str_N n) = Some (Z.of_N n).
Proof.
  induction n as [n Hn|n Hn IH] using decimal_ind.
  - rewrite str_N_small by done. simpl.
    rewrite is_digit_digit_char, digit_value_digit_char by done. f_equal; lia.
  - rewrite str_N_step, digits_value_app, IH by done. simpl.
    assert (n `mod` 10 < 10)%N as Hmod by (apply N.mod_lt; lia).
    rewrite is_digit_digit_char, digit_value_digit_char by done. f_equal.
    pose proof (N.Div0.div_mod n 10) as Hdiv.
    generalize dependent (n / 10)%N. generalize dependent (n `mod` 10)%N.
    intros; lia.
Qed.

Lemma digits_value_zeros k s :
  digits_value 0 (Str.repeat "0" k +:+ s) = digits_value 0 s.
Proof. induction k as [|k IH]; [done |]. simpl Str.repeat. rewrite string_app_cons. apply IH. Qed.

End TicketValue.

(** ** [str] and [zfill] *)

Section Tickets.

Lemma is_digit_no_sign c :
  is_digit c = true -> is_sign c = false /\ Ascii.eqb c "-" = false.
Proof. destruct c as [[] [] [] [] [] [] [] []]; done. Qed.

Lemma is_digit_plain c : is_digit c = true -> special c = false.
Proof. destruct c as [[] [] [] [] [] [] [] []]; done. Qed.

Lemma py_str_pos z : 0 < z -> py_str z = str_N (Z.to_N z).
Proof. by destruct z. Qed.

Lemma py_str_neg z : z < 0 -> py_str z = String "-" (str_N (Z.to_N (- z))).
Proof. by destruct z. Qed.

Lemma length_py_str_mono a b :
  1 <= a -> a <= b -> (Str.length (py_str a) <= Str.length (py_str b))%nat.
Proof.
  intros Ha Hab. rewrite !py_str_pos by lia.
  apply str_N_length_mono; lia.
Qed.

(** The length of the decimal notation of a positive integer is its number
    of decimal digits. *)
Lemma length_py_str_digits z :
  1 <= z ->
  let len := Z.of_nat (Str.length (py_str z)) in
  10 ^ (len - 1) <= z < 10 ^ len.
Proof.
  intros Hz len. subst len. rewrite py_str_pos by lia.
  destruct (str_N_length (Z.to_N z)) as [Hu Hl].
  specialize (Hl ltac:(lia)).
  pose proof (str_N_nonempty (Z.to_N z)) as Hne.
  destruct (str_N (Z.to_N z)) as [|c s] eqn:Hs; [done |]. clear Hne.
  simpl Str.length in *.
  rewrite Nat2N.inj_succ, N.pow_succ_r' in Hu, Hl.
  rewrite Nat2Z.inj_succ.
  replace (Z.succ (Z.of_nat (Str.length s)) - 1) with (Z.of_nat (Str.length s)) by lia.
  rewrite Z.pow_succ_r by lia.
  assert (Z.of_N (10 ^ N.of_nat (Str.length s)) = 10 ^ Z.of_nat (Str.length s)) as Hpow.
  { rewrite N2Z.inj_pow. f_equal. lia. }
  generalize dependent (10 ^ Z.of_nat (Str.length s)).
  generalize dependent (10 ^ N.of_nat (Str.length s))%N.
  intros; lia.
Qed.

Lemma length_zfill s width :
  Str.length (zfill s width) = Nat.max width (Str.length s).
Proof.
  unfold zfill. destruct (width <=? Str.length s)%nat eqn:Hw.
  - apply Nat.leb_le in Hw. lia.
  - apply Nat.leb_gt in Hw. destruct s as [|c rest].
    + rewrite string_length_repeat. simpl. lia.
    + destruct (is_sign c).
      * simpl. rewrite string_length_app, string_length_repeat. lia.
      * rewrite string_length_app, string_length_repeat. simpl. lia.
Qed.

Lemma ticket_value_digits s :
  s <> EmptyString -> Str.forallb is_digit s = true ->
  ticket_value s = digits_value 0 s.
Proof.
  destruct s as [|c s]; [done |]. intros _ [Hc _]%andb_true_iff.
  unfold ticket_value. by destruct (is_digit_no_sign c Hc) as [_ ->].
Qed.

Lemma ticket_value_minus s :
  s <> EmptyString -> ticket_value (String "-" s) = Z.opp <$> digits_value 0 s.
Proof. by destruct s. Qed.

Lemma repeat_app_nonempty c k s : s <> EmptyString -> Str.repeat c k +:+ s <> EmptyString.
Proof. by destruct k. Qed.

Lemma ticket_value_zfill_N n width :
  ticket_value (zfill (str_N n) width) = Some (Z.of_N n).
Proof.
  pose proof (str_N_nonempty n) as Hne. pose proof (str_N_digits n) as Hd.
  unfold zfill. destruct (width <=? _)%nat.
  - by rewrite ticket_value_digits, digits_value_str_N.
  - destruct (str_N n) as [|c rest] eqn:Hs; [done |].
    assert (is_sign c = false) as ->.
    { apply andb_true_iff in Hd as [Hc _]. by apply is_digit_no_sign. }
    rewrite <- Hs in *.
    rewrite ticket_value_digits, digits_value_zeros, digits_value_str_N; [done | |].
    + by apply repeat_app_nonempty.
    + by rewrite string_forallb_app, string_forallb_repeat, Hd.
Qed.

(** A ticket number denotes the integer it was made from, whatever the
    width of the padding. *)
Lemma ticket_value_zfill z width : ticket_value (zfill (py_str z) width) = Some z.
Proof.
  destruct z as [|p|p].
  - apply (ticket_value_zfill_N 0).
  - apply (ticket_value_zfill_N (Npos p)).
  - pose proof (str_N_nonempty (Npos p)) as Hne.
    unfold py_str, zfill. destruct (width <=? _)%nat.
    + by rewrite ticket_value_minus, digits_value_str_N.
    + change (is_sign "-") with true. cbv iota.
      rewrite ticket_value_minus, digits_value_zeros, digits_value_str_N; [done |].
      by apply repeat_app_nonempty.
Qed.

Lemma zfill_py_str_inj width a b :
  zfill (py_str a) width = zfill (py_str b) width -> a = b.
Proof.
  intros Heq. apply (f_equal ticket_value) in Heq.
  rewrite !ticket_value_zfill in Heq. congruence.
Qed.

Lemma ticket_chars z width : Str.forallb ticket_char (zfill (py_str z) width) = true.
Proof.
  assert (forall n, Str.forallb ticket_char (str_N n) = true) as Hn.
  { intros n. apply (string_forallb_impl is_digit); [| apply str_N_digits].
    intros c Hc. unfold ticket_char. by rewrite Hc. }
  assert (Str.forallb ticket_char (py_str z) = true) as Hz.
  { destruct z as [|p|p]; [done | apply Hn |]. simpl. apply Hn. }
  unfold zfill. destruct (width <=? _)%nat; [done |].
  destruct (py_str z) as [|c rest]; [by apply string_forallb_repeat |].
  destruct (is_sign c).
  - simpl in *. apply andb_true_iff in Hz as [-> Hrest].
    by rewrite string_forallb_app, string_forallb_repeat, Hrest.
  - by rewrite string_forallb_app, string_forallb_repeat, Hz.
Qed.

End Tickets.

(** ** The limit of [str] *)

Section StrLimit.

Lemma decimal_digits_le z d :
  1 <= d -> Z.of_nat (decimal_digits z) <= d <-> Z.abs z < 10 ^ d.
Proof.
  intros Hd. unfold decimal_digits.
  destruct (str_N_length (Z.abs_N z)) as [Hu Hl].
  pose proof (str_N_nonempty (Z.abs_N z)) as Hne.
  set (len := Str.length (str_N (Z.abs_N z))) in *.
  assert (1 <= Z.of_nat len) as Hlen.
  { subst len. destruct (str_N (Z.abs_N z)); [done | simpl; lia]. }
  assert (Z.of_N (10 ^ N.of_nat len) = 10 ^ Z.of_nat len) as Hpow.
  { rewrite N2Z.inj_pow. f_equal. lia. }
  assert (Z.of_N (Z.abs_N z) = Z.abs z) as Habs by lia.
  split.
  - intros Hle.
    assert (10 ^ Z.of_nat len <= 10 ^ d) by (apply Z.pow_le_mono_r; lia).
    generalize dependent (10 ^ d). generalize dependent (10 ^ Z.of_nat len).
    generalize dependent (10 ^ N.of_nat len)%N. intros; lia.
  - intros Hlt.
    destruct (Z.le_gt_cases (Z.of_nat len) d) as [Hle|Hgt]; [done | exfalso].
    destruct (decide (Z.abs_N z = 0%N)) as [H0|H0].
    + subst len. rewrite H0 in Hgt. change (str_N 0) with "0" in Hgt.
      simpl in Hgt. lia.
    + specialize (Hl H0).
      assert (10 ^ (d + 1) <= 10 ^ Z.of_nat len) by (apply Z.pow_le_mono_r; lia).
      rewrite Z.pow_add_r, Z.pow_1_r in * by lia.
      generalize dependent (10 ^ d). generalize dependent (10 ^ Z.of_nat len).
      generalize dependent (10 ^ N.of_nat len)%N. intros; lia.
Qed.

Lemma printable_digits z :
  printable z <-> Z.of_nat (decimal_digits z) <= int_max_str_digits.
Proof. unfold printable. symmetry. by apply decimal_digits_le. Qed.

Lemma str_printable z w : printable z -> str z w = (Returns (py_str z), w).
Proof.
  intros Hz%printable_digits. unfold str.
  destruct (Z.ltb_spec int_max_str_digits (Z.of_nat (decimal_digits z))); [lia | done].
Qed.

Lemma str_not_printable z w : ~ printable z -> str z w = (Raises ValueError, w).
Proof.
  intros Hz. unfold str.
  destruct (Z.ltb_spec int_max_str_digits (Z.of_nat (decimal_digits z)));
    [done |].
  destruct Hz. by apply printable_digits.
Qed.

Lemma printable_dec z : {printable z} + {~ printable z}.
Proof. unfold printable. apply Z_lt_dec. Defined.

Lemma printable_small z : Z.abs z < 10 ^ 6 -> printable z.
Proof.
  intros Hz. unfold printable. eapply Z.lt_le_trans; [exact Hz |].
  apply Z.pow_le_mono_r; [lia | by unfold int_max_str_digits].
Qed.

Lemma printable_between a b z :
  printable a -> printable b -> a <= z <= b -> printable z.
Proof.
  unfold printable. generalize (10 ^ int_max_str_digits). intros; lia.
Qed.

Lemma not_printable_limit : ~ printable (10 ^ int_max_str_digits).
Proof.
  unfold printable.
  assert (0 <= 10 ^ int_max_str_digits) by (apply Z.pow_nonneg; lia).
  generalize dependent (10 ^ int_max_str_digits). intros; lia.
Qed.

Lemma zfill_zero_padded z width : zfill (py_str z) width = zero_padded z width.
Proof.
  unfold zero_padded, zfill. destruct z as [|p|p].
  - change (py_str 0) with "0". change (str_N (Z.abs_N 0)) with "0".
    change (0 <? 0) with false. cbv iota. rewrite string_app_nil_l.
    change (Str.length "0") with 1%nat. change (Str.length EmptyString) with 0%nat.
    destruct (Nat.leb_spec width 1) as [Hw|Hw].
    + by replace (width - 0 - 1)%nat with 0%nat by lia.
    + change (is_sign "0") with false. cbv iota.
      by replace (width - 0 - 1)%nat with (width - 1)%nat by lia.
  - change (py_str (Z.pos p)) with (str_N (Npos p)).
    change (Z.abs_N (Z.pos p)) with (Npos p).
    change (Z.pos p <? 0) with false. cbv iota. rewrite string_app_nil_l.
    change (Str.length EmptyString) with 0%nat.
    pose proof (str_N_digits (Npos p)) as Hd.
    pose proof (str_N_nonempty (Npos p)) as Hne.
    destruct (Nat.leb_spec width (Str.length (str_N (Npos p)))) as [Hw|Hw].
    + by replace (width - 0 - Str.length (str_N (N.pos p)))%nat with 0%nat by lia.
    + replace (width - 0 - Str.length (str_N (N.pos p)))%nat
        with (width - Str.length (str_N (N.pos p)))%nat by lia.
      destruct (str_N (Npos p)) as [|c rest]; [done |].
      simpl in Hd. apply andb_true_iff in Hd as [Hc _].
      by destruct (is_digit_no_sign c Hc) as [-> _].
  - change (py_str (Z.neg p)) with (String "-" (str_N (Npos p))).
    change (Z.abs_N (Z.neg p)) with (Npos p).
    change (Z.neg p <? 0) with true. cbv iota.
    change (Str.length "-") with 1%nat.
    change (Str.length (String "-" ?s)) with (S (Str.length s)).
    destruct (Nat.leb_spec width (S (Str.length (str_N (Npos p))))) as [Hw|Hw].
    + by replace (width - 1 - Str.length (str_N (N.pos p)))%nat with 0%nat by lia.
    + change (is_sign "-") with true. cbv iota.
      by replace (width - 1 - Str.length (str_N (N.pos p)))%nat
        with (width - S (Str.length (str_N (N.pos p))))%nat by lia.
Qed.

End StrLimit.

(** ** The monad *)

Section Monad.

Context {A B : Type}.

Lemma bind_returns (m : M A) (k : A -> M B) w a w' :
  m w = (Returns a, w') -> bind m k w = k a w'.
Proof. unfold bind. by intros ->. Qed.

Lemma bind_raises (m : M A) (k : A -> M B) w e w' :
  m w = (Raises e, w') -> bind m k w = (Raises e, w').
Proof. unfold bind. by intros ->. Qed.

Lemma for_in_nil {S : Type} (body : A -> S -> M S) s :
  for_in [] body s = ret s.
Proof. reflexivity. Qed.

Lemma for_in_cons {S : Type} x xs (body : A -> S -> M S) s :
  for_in (x :: xs) body s = (s' <- body x s ;; for_in xs body s').
Proof. reflexivity. Qed.

End Monad.

Lemma advance_0 w : advance 0 w = w.
Proof. by destruct w. Qed.

Lemma advance_advance j k w : advance j (advance k w) = advance (j + k) w.
Proof. unfold advance. simpl. f_equal. lia. Qed.

(** ** [generate_participants] *)

Section Generate.

Lemma choice_nonempty names w :
  names <> [] ->
  choice names w = (Returns (pick names (tape w (cursor w))), advance 1 w).
Proof.
  intros Hne. destruct names as [|x names]; [done |].
  unfold choice, pick. erewrite bind_returns by reflexivity.
  destruct (lookup_lt_is_Some_2 (x :: names)
              (tape w (cursor w) `mod` length (x :: names))%nat) as [y Hy].
  { apply Nat.mod_upper_bound. done. }
  by rewrite Hy.
Qed.

Lemma pick_elem_of names raw : names <> [] -> pick names raw ∈ names.
Proof.
  intros Hne. unfold pick.
  destruct (lookup_lt_is_Some_2 names (raw `mod` length names)%nat) as [y Hy].
  { apply Nat.mod_upper_bound. by destruct names. }
  rewrite Hy. simpl. by eapply list_elem_of_lookup_2.
Qed.

Lemma generate_participants_loop count start_ticket w n a acc :
  printable (start_ticket + count - 1) ->
  (forall i, (a <= i < a + n)%nat -> printable (start_ticket + Z.of_nat i)) ->
  for_in (map Z.of_nat (seq a n))
    (fun i participants =>
       first <- choice first_names ;;
       last <- choice last_names ;;
       number <- str (start_ticket + i) ;;
       last_number <- str (start_ticket + count - 1) ;;
       let ticket := zfill number (Str.length last_number) in
       ret (participants ++
            [ {[ "first" := first; "last" := last; "ticket_number" := ticket ]} ]))
    acc (advance (2 * a) w)
  = (Returns (acc ++ map (participant_at w count start_ticket) (seq a n)),
     advance (2 * (a + n)) w).
Proof.
  intros Hlast. revert a acc. induction n as [|n IH]; intros a acc Hall.
  - change (seq a 0) with (@nil nat). change (map Z.of_nat []) with (@nil Z).
    rewrite for_in_nil. unfold ret. change (map _ []) with (@nil (gmap string string)).
    rewrite app_nil_r. do 2 f_equal. lia.
  - change (seq a (S n)) with (a :: seq (S a) n).
    change (map Z.of_nat (a :: seq (S a) n))
      with (Z.of_nat a :: map Z.of_nat (seq (S a) n)).
    rewrite for_in_cons.
    erewrite bind_returns; cycle 1.
    { erewrite bind_returns by (by apply choice_nonempty).
      erewrite bind_returns by (by apply choice_nonempty).
      erewrite bind_returns by (apply str_printable, Hall; lia).
      erewrite bind_returns by (by apply str_printable).
      reflexivity. }
    rewrite !advance_advance.
    replace (1 + (1 + 2 * a))%nat with (2 * S a)%nat by lia.
    rewrite IH by (intros i Hi; apply Hall; lia).
    rewrite <- (assoc_L (++)).
    change (map ?f (a :: ?l)) with (f a :: map f l).
    replace (2 * (S a + n))%nat with (2 * (a + S n))%nat by lia.
    change ([?x] ++ ?l) with (x :: l).
    reflexivity.
Qed.

(** What [generate_participants] returns, and what it consumes, when [str]
    converts all its ticket numbers. *)
Lemma generate_participants_run count start_ticket w :
  printable_range count start_ticket ->
  generate_participants count start_ticket w
  = (Returns (batch_at w count start_ticket), advance (2 * Z.to_nat count) w).
Proof.
  intros [Hcount | [Hfirst Hlast]].
  - unfold generate_participants, range, batch_at.
    replace (Z.to_nat count) with 0%nat by lia.
    by rewrite advance_0.
  - unfold generate_participants, range, batch_at.
    rewrite <- (advance_0 w) at 1.
    change 0%nat with (2 * 0)%nat at 2.
    rewrite generate_participants_loop; [done | done |].
    intros i Hi. apply (printable_between start_ticket (start_ticket + count - 1));
      [done | done | lia].
Qed.

(** Otherwise the first round raises, behind the two random choices. *)
Lemma generate_participants_raises count start_ticket w :
  ~ printable_range count start_ticket ->
  generate_participants count start_ticket w = (Raises ValueError, advance 2 w).
Proof.
  intros Hnot.
  assert (1 <= count) as Hcount.
  { destruct (Z.le_gt_cases count 0); [| lia]. destruct Hnot. by left. }
  unfold generate_participants, range.
  destruct (Z.to_nat count) as [|n] eqn:Hn; [lia |].
  change (seq 0 (S n)) with (0%nat :: seq 1 n).
  change (map Z.of_nat (0%nat :: seq 1 n)) with (0 :: map Z.of_nat (seq 1 n)).
  rewrite for_in_cons, Z.add_0_r.
  apply bind_raises.
  erewrite bind_returns by (by apply choice_nonempty).
  erewrite bind_returns by (by apply choice_nonempty).
  rewrite advance_advance. change (1 + 1)%nat with 2%nat.
  destruct (printable_dec start_ticket) as [Hfirst|Hfirst].
  - erewrite bind_returns by (by apply str_printable).
    apply bind_raises, str_not_printable.
    intros Hlast. apply Hnot. by right.
  - by apply bind_raises, str_not_printable.
Qed.

Lemma printable_range_dec count start_ticket :
  {printable_range count start_ticket} + {~ printable_range count start_ticket}.
Proof.
  unfold printable_range.
  destruct (Z_le_dec count 0) as [|Hcount]; [by left; left |].
  destruct (printable_dec start_ticket) as [|Hfirst];
    [| right; intros [|[]]; done].
  destruct (printable_dec (start_ticket + count - 1)) as [|Hlast];
    [by left; right | right; intros [|[]]; done].
Defined.

(** A run that returns is the run over a range that [str] converts. *)
Lemma generate_participants_returns count start_ticket w participants w' :
  generate_participants count start_ticket w = (Returns participants, w') ->
  printable_range count start_ticket
  /\ participants = batch_at w count start_ticket
  /\ w' = advance (2 * Z.to_nat count) w.
Proof.
  intros Hrun.
  destruct (printable_range_dec count start_ticket) as [Hfits|Hfits].
  - rewrite generate_participants_run in Hrun by done. by simplify_eq.
  - rewrite generate_participants_raises in Hrun by done. done.
Qed.

Lemma participant_at_first w count start_ticket i :
  participant_at w count start_ticket i !! "first"
  = Some (pick first_names (tape w (2 * i + cursor w)%nat)).
Proof. unfold participant_at. by simplify_map_eq. Qed.

Lemma participant_at_last w count start_ticket i :
  participant_at w count start_ticket i !! "last"
  = Some (pick last_names (tape w (S (2 * i + cursor w))%nat)).
Proof. unfold participant_at. by simplify_map_eq. Qed.

Lemma participant_at_ticket w count start_ticket i :
  participant_at w count start_ticket i !! "ticket_number"
  = Some (zfill (py_str (start_ticket + Z.of_nat i))
                (Str.length (py_str (start_ticket + count - 1)))).
Proof. unfold participant_at. by simplify_map_eq. Qed.

Lemma ticket_numbers_batch_at w count start_ticket :
  ticket_numbers (batch_at w count start_ticket)
  = map (fun i => Some (zfill (py_str (start_ticket + i))
                              (Str.length (py_str (start_ticket + count - 1)))))
        (range count).
Proof.
  unfold ticket_numbers, batch_at, range. rewrite !map_map.
  apply map_ext. intros i. apply participant_at_ticket.
Qed.

Lemma elem_of_range count k : k ∈ range count <-> 0 <= k < count.
Proof.
  unfold range. rewrite list_elem_of_In, in_map_iff. split.
  - intros (i & <- & Hi%in_seq). lia.
  - intros Hk. exists (Z.to_nat k). rewrite in_seq. lia.
Qed.

End Generate.

(** ** The writer *)

Section Writer.

Lemma special_needs_quotes c : special c = needs_quotes c.
Proof.
  unfold special, needs_quotes, lineterminator, delimiter, quotechar, CR, LF.
  simpl. by rewrite orb_false_r, orb_assoc.
Qed.

Lemma field_quoted_needs_quotes f : field_quoted f = Str.existsb needs_quotes f.
Proof.
  unfold field_quoted. induction f as [|c f IH]; simpl; [done |].
  by rewrite IH, special_needs_quotes.
Qed.

Lemma field_data_double_quotes f : field_data f = double_quotes f.
Proof.
  induction f as [|c f IH]; simpl; [done |]. rewrite IH.
  change quotechar with "034"%char.
  destruct (Ascii.eqb_spec c "034") as [->|]; done.
Qed.

Lemma double_quotes_plain f :
  Str.existsb needs_quotes f = false -> double_quotes f = f.
Proof.
  induction f as [|c f IH]; simpl; [done |].
  intros [Hc Hf]%orb_false_iff. rewrite IH by done.
  destruct (Ascii.eqb_spec c "034") as [->|]; done.
Qed.

Lemma join_append_rfc4180 rec num_fields f :
  join_append rec num_fields f
  = (if (0 <? num_fields)%nat then rec +:+ "," else rec) +:+ rfc4180_field f.
Proof.
  unfold join_append, rfc4180_field.
  rewrite field_quoted_needs_quotes, field_data_double_quotes.
  destruct (Str.existsb needs_quotes f) eqn:Hq; [reflexivity |].
  by rewrite double_quotes_plain.
Qed.

(** A row of three fields, as [csv.writer.writerow] writes it. *)
Lemma writerow_rfc4180 a b c : writerow [a; b; c] = rfc4180_line [a; b; c].
Proof.
  unfold writerow, rfc4180_line. simpl join_row.
  rewrite !join_append_rfc4180.
  change (0 <? 0)%nat with false. change (0 <? 1)%nat with true.
  change (0 <? 2)%nat with true. change (0 <? length [a; b; c])%nat with true.
  cbv iota. rewrite string_app_nil_l.
  assert (forall s t, (Str.length (s +:+ "," +:+ t) =? 0)%nat = false) as Hlen.
  { intros s t. rewrite string_length_app. simpl. apply Nat.eqb_neq. lia. }
  rewrite !string_app_assoc, Hlen. reflexivity.
Qed.

Lemma writable_wrong_fields p :
  writable p <-> dom p ∖ list_to_set fieldnames = (∅ : gset string).
Proof.
  unfold writable, fieldnames.
  change (list_to_set ["first"; "last"; "ticket_number"] : gset string)
    with ({["first"]} ∪ ({["last"]} ∪ ({["ticket_number"]} ∪ ∅)) : gset string).
  generalize (dom p). intros X. split.
  - intros H. apply elem_of_equiv_empty_L. intros x [Hx Hn]%elem_of_difference.
    apply Hn. apply H in Hx. set_solver.
  - intros H x Hx.
    destruct (decide (x ∈ ({["first"; "last"; "ticket_number"]} : gset string)))
      as [|Hn]; [done |].
    exfalso. apply (not_elem_of_empty (C:=gset string) x).
    rewrite <- H. apply elem_of_difference. split; [done |]. set_solver.
Qed.

Lemma dict_to_list_writable p :
  writable p -> dict_to_list p = ret (participant_fields p).
Proof.
  intros Hp%writable_wrong_fields. unfold dict_to_list.
  by destruct (decide _).
Qed.

Lemma dict_to_list_not_writable p :
  ~ writable p -> dict_to_list p = raise ValueError.
Proof.
  intros Hp. unfold dict_to_list.
  destruct (decide _) as [He|]; [| done].
  by apply writable_wrong_fields in He.
Qed.

Lemma open_w_run filename w : open_w filename w = (Returns tt, written w filename EmptyString).
Proof. reflexivity. Qed.

Lemma file_write_run filename data w text :
  file_write filename data (written w filename text)
  = (Returns tt, written w filename (text +:+ data)).
Proof.
  unfold file_write, written. simpl.
  by rewrite lookup_insert_eq, insert_insert_eq.
Qed.

Lemma writeheader_run filename w text :
  writeheader filename (written w filename text)
  = (Returns tt,
     written w filename (text +:+ rfc4180_line ["first"; "last"; "ticket_number"])).
Proof.
  unfold writeheader.
  assert (dict_to_list (dict (zip fieldnames fieldnames)) = ret fieldnames) as ->.
  { apply dict_to_list_writable. unfold writable, dict, fieldnames. simpl.
    rewrite !dom_insert_L, dom_empty_L. set_solver. }
  erewrite bind_returns by reflexivity.
  unfold fieldnames. by rewrite writerow_rfc4180, file_write_run.
Qed.

(** [writerows] writes the records up to the first one with a key that is
    not a field name, and raises [ValueError] at that one. *)
Lemma writerows_run filename participants w text :
  writerows filename participants (written w filename text)
  = (if decide (Forall writable participants) then Returns tt else Raises ValueError,
     written w filename
       (text +:+ Str.concat (map (fun p => rfc4180_line (participant_fields p))
                                 (accepted participants)))).
Proof.
  unfold writerows. revert text.
  induction participants as [|p ps IH]; intros text.
  - rewrite for_in_nil. simpl. rewrite string_app_nil_r.
    by destruct (decide (Forall writable [])) as [|[]].
  - rewrite for_in_cons. simpl accepted.
    destruct (decide (writable p)) as [Hp|Hp].
    + erewrite bind_returns; cycle 1.
      { rewrite dict_to_list_writable by done.
        erewrite bind_returns by reflexivity.
        unfold participant_fields. rewrite writerow_rfc4180.
        apply file_write_run. }
      rewrite IH. simpl. rewrite string_app_assoc. f_equal.
      destruct (decide (Forall writable ps)) as [Hps|Hps];
        destruct (decide (Forall writable (p :: ps))) as [Hall|Hall]; try done.
      * destruct Hall. by constructor.
      * by inversion Hall.
    + erewrite bind_raises; cycle 1.
      { rewrite dict_to_list_not_writable by done.
        erewrite bind_raises by reflexivity. reflexivity. }
      simpl. rewrite string_app_nil_r.
      destruct (decide (Forall writable (p :: ps))) as [Hall|Hall]; [| done].
      by inversion Hall.
Qed.

Lemma accepted_writable participants :
  Forall writable participants -> accepted participants = participants.
Proof.
  induction 1 as [|p ps Hp Hps IH]; simpl; [done |].
  destruct (decide _); [by rewrite IH | done].
Qed.

Lemma Forall_writable_accepted participants : Forall writable (accepted participants).
Proof.
  induction participants as [|p ps IH]; simpl; [done |].
  destruct (decide _); by constructor.
Qed.

(** What [write_csv] does to the file, in every case. *)
Lemma write_csv_file filename participants w :
  files (write_csv filename participants w).2 !! filename
  = Some (csv_text (accepted participants)).
Proof.
  unfold write_csv.
  erewrite bind_returns by apply open_w_run.
  erewrite bind_returns by apply writeheader_run.
  rewrite string_app_nil_l.
  destruct (decide (Forall writable participants)) as [Hall|Hall].
  - erewrite bind_returns; cycle 1.
    { rewrite writerows_run.
      by destruct (decide (Forall writable participants)). }
    simpl. by rewrite lookup_insert_eq.
  - erewrite bind_raises; cycle 1.
    { rewrite writerows_run.
      by destruct (decide (Forall writable participants)). }
    simpl. by rewrite lookup_insert_eq.
Qed.

Lemma write_csv_run filename participants w :
  Forall writable participants ->
  write_csv filename participants w
  = (Returns tt,
     printed (written w filename (csv_text participants))
             (generated_message filename (length participants))).
Proof.
  intros Hall. unfold write_csv.
  erewrite bind_returns by apply open_w_run.
  erewrite bind_returns by apply writeheader_run.
  erewrite bind_returns; cycle 1.
  { rewrite writerows_run. by destruct (decide _). }
  rewrite string_app_nil_l, accepted_writable by done.
  reflexivity.
Qed.

Lemma write_csv_raises filename participants w :
  ~ Forall writable participants ->
  write_csv filename participants w
  = (Raises ValueError, written w filename (csv_text (accepted participants))).
Proof.
  intros Hall. unfold write_csv.
  erewrite bind_returns by apply open_w_run.
  erewrite bind_returns by apply writeheader_run.
  erewrite bind_raises; cycle 1.
  { rewrite writerows_run. by destruct (decide _). }
  by rewrite string_app_nil_l.
Qed.

Lemma participant_at_writable w count start_ticket i :
  writable (participant_at w count start_ticket i).
Proof. unfold writable, participant_at. rewrite !dom_insert_L. set_solver. Qed.

Lemma batch_at_writable w count start_ticket :
  Forall writable (batch_at w count start_ticket).
Proof.
  unfold batch_at. apply Forall_forall. intros p Hp.
  apply list_elem_of_In, in_map_iff in Hp as (i & <- & _).
  apply participant_at_writable.
Qed.

End Writer.

(** ** The reader *)

Section Reader.

Local Notation rd st f fs := {| state := st; field := f; fields := fs |}.

Lemma needs_quotes_false c :
  needs_quotes c = false ->
  Ascii.eqb c delimiter = false /\ Ascii.eqb c quotechar = false
  /\ is_newline c = false.
Proof.
  unfold needs_quotes, is_newline, delimiter, quotechar, CR, LF.
  intros [[[-> ->]%orb_false_iff ->]%orb_false_iff ->]%orb_false_iff. done.
Qed.

(** An unquoted field is read character by character. *)
Lemma reader_in_field s acc fs rest :
  Str.existsb needs_quotes s = false ->
  reader_rows (rd IN_FIELD acc fs) (s +:+ rest)
  = reader_rows (rd IN_FIELD (acc +:+ s) fs) rest.
Proof.
  revert acc. induction s as [|c s IH]; intros acc.
  - by rewrite string_app_nil_r.
  - simpl Str.existsb. intros [Hc Hs]%orb_false_iff.
    destruct (needs_quotes_false c Hc) as (Hd & Hq & Hn).
    rewrite string_app_cons. simpl reader_rows.
    unfold parse_process_char. simpl state. rewrite Hn, Hd.
    unfold parse_add_char. simpl field. simpl fields.
    rewrite IH by done. by rewrite string_app_assoc.
Qed.

(** Between the quotes a doubled quote is read as one quote, every other
    character as it is. *)
Lemma reader_in_quoted_field s acc fs rest :
  reader_rows (rd IN_QUOTED_FIELD acc fs) (double_quotes s +:+ rest)
  = reader_rows (rd IN_QUOTED_FIELD (acc +:+ s) fs) rest.
Proof.
  revert acc. induction s as [|c s IH]; intros acc.
  - by rewrite string_app_nil_r.
  - simpl double_quotes. change "034"%char with quotechar.
    destruct (Ascii.eqb_spec c quotechar) as [->|Hc].
    + rewrite !string_app_cons.
      change (reader_rows (rd IN_QUOTED_FIELD acc fs)
                (String quotechar (String quotechar (double_quotes s +:+ rest))))
        with (reader_rows (rd IN_QUOTED_FIELD (acc +:+ String quotechar EmptyString) fs)
                (double_quotes s +:+ rest)).
      rewrite IH. by rewrite string_app_assoc.
    + rewrite string_app_cons. simpl reader_rows.
      unfold parse_process_char. simpl state.
      apply Ascii.eqb_neq in Hc. rewrite Hc.
      unfold parse_add_char. simpl field. simpl fields.
      rewrite IH. by rewrite string_app_assoc.
Qed.

(** The reader in front of a field that is followed by a delimiter. *)
Lemma reader_field_delimiter st f fs rest :
  st = START_RECORD \/ st = START_FIELD ->
  reader_rows (rd st EmptyString fs) (rfc4180_field f +:+ String delimiter rest)
  = reader_rows (rd START_FIELD EmptyString (fs ++ [f])) rest.
Proof.
  intros Hst. unfold rfc4180_field.
  destruct (Str.existsb needs_quotes f) eqn:Hf.
  - rewrite string_app_cons, string_app_assoc.
    transitivity (reader_rows (rd IN_QUOTED_FIELD EmptyString fs)
                    (double_quotes f +:+ String quotechar (String delimiter rest))).
    { by destruct Hst as [-> | ->]. }
    by rewrite reader_in_quoted_field.
  - destruct f as [|c f].
    + by destruct Hst as [-> | ->].
    + simpl in Hf. apply orb_false_iff in Hf as [Hc Hf].
      destruct (needs_quotes_false c Hc) as (Hd & Hq & Hn).
      rewrite string_app_cons.
      transitivity (reader_rows (rd IN_FIELD (String c EmptyString) fs)
                      (f +:+ String delimiter rest)).
      { simpl reader_rows. unfold parse_process_char. simpl state.
        destruct Hst as [-> | ->]; by rewrite Hn, Hq, Hd. }
      by rewrite reader_in_field.
Qed.

(** The reader in front of the last field of a line. *)
Lemma reader_field_newline f fs rest :
  reader_rows (rd START_FIELD EmptyString fs)
    (rfc4180_field f +:+ String CR (String LF rest))
  = (fs ++ [f]) :: reader_rows (parse_reset START_RECORD) rest.
Proof.
  unfold rfc4180_field.
  destruct (Str.existsb needs_quotes f) eqn:Hf.
  - rewrite string_app_cons, string_app_assoc.
    transitivity (reader_rows (rd IN_QUOTED_FIELD EmptyString fs)
                    (double_quotes f +:+ String quotechar (String CR (String LF rest)))).
    { done. }
    by rewrite reader_in_quoted_field.
  - destruct f as [|c f].
    + done.
    + simpl in Hf. apply orb_false_iff in Hf as [Hc Hf].
      destruct (needs_quotes_false c Hc) as (Hd & Hq & Hn).
      rewrite string_app_cons.
      transitivity (reader_rows (rd IN_FIELD (String c EmptyString) fs)
                      (f +:+ String CR (String LF rest))).
      { simpl reader_rows. unfold parse_process_char. simpl state.
        by rewrite Hn, Hq, Hd. }
      by rewrite reader_in_field.
Qed.

(** A line of three fields is read back as these three fields. *)
Lemma reader_line a b c rest :
  reader_rows (parse_reset START_RECORD) (rfc4180_line [a; b; c] +:+ rest)
  = [a; b; c] :: reader_rows (parse_reset START_RECORD) rest.
Proof.
  unfold rfc4180_line. simpl Str.join. simpl map.
  change (Str.join "," [rfc4180_field a; rfc4180_field b; rfc4180_field c])
    with (rfc4180_field a +:+ "," +:+ rfc4180_field b +:+ "," +:+ rfc4180_field c).
  rewrite !string_app_assoc.
  rewrite !(string_app_cons "," EmptyString), !string_app_nil_l.
  change ","%char with delimiter.
  change (String "013" (String "010" EmptyString) +:+ rest)
    with (String CR (String LF rest)).
  unfold parse_reset.
  rewrite reader_field_delimiter by (by left).
  rewrite reader_field_delimiter by (by right).
  by rewrite reader_field_newline.
Qed.

Lemma reader_lines (rows : list (gmap string string)) :
  reader_rows (parse_reset START_RECORD)
    (Str.concat (map (fun p => rfc4180_line (participant_fields p)) rows))
  = map participant_fields rows.
Proof.
  induction rows as [|p rows IH]; [done |].
  simpl map. simpl Str.concat. unfold participant_fields at 1.
  by rewrite reader_line, IH.
Qed.

Lemma csv_reader_csv_text participants :
  csv_reader (csv_text participants)
  = ["first"; "last"; "ticket_number"] :: map participant_fields participants.
Proof.
  unfold csv_reader, csv_text. simpl Str.concat.
  by rewrite reader_line, reader_lines.
Qed.

Lemma DictReader_csv_text participants :
  DictReader (csv_text participants) = Some (map read_back participants).
Proof.
  unfold DictReader. rewrite csv_reader_csv_text.
  induction participants as [|p ps IH]; [done |].
  simpl map. rewrite filter_cons_True by done.
  simpl mapM. by rewrite IH.
Qed.

Lemma read_back_writable p : writable (read_back p).
Proof.
  unfold writable, read_back, participant_fields, dict. simpl.
  rewrite !dom_insert_L. set_solver.
Qed.

Lemma participant_fields_read_back p :
  participant_fields (read_back p) = participant_fields p.
Proof.
  unfold read_back, participant_fields at 1, dict. simpl.
  by simplify_map_eq.
Qed.

Lemma csv_text_read_back participants :
  csv_text (map read_back participants) = csv_text participants.
Proof.
  unfold csv_text. do 2 f_equal. rewrite map_map.
  apply map_ext. intros p. by rewrite participant_fields_read_back.
Qed.

End Reader.

(** * The participant generator *)

Section GeneratorClaims.

(** C1, as the code has it: for every [count >= 0] and every
    [start_ticket] whose ticket numbers [str] converts (if there is a round
    at all, [start_ticket] and [start_ticket + count - 1] have at most 4300
    digits), [generate_participants count start_ticket] returns exactly
    [count] records; the record at position [i] has as [ticket_number] the
    decimal string of [start_ticket + i] padded with zeros, behind the
    sign, to the width of the last ticket number; so the ticket numbers
    denote [start_ticket, start_ticket + 1, ..., start_ticket + count - 1]
    in this ascending order, the ticket numbers of the batch are exactly
    the padded strings of this range, and none occurs twice. *)
Theorem generate_participants_tickets (count start_ticket : Z) (w : World) :
  0 <= count -> printable_range count start_ticket ->
  let width := Str.length (py_str (start_ticket + count - 1)) in
  exists participants w',
    generate_participants count start_ticket w = (Returns participants, w')
    /\ Z.of_nat (length participants) = count
    /\ (forall i, 0 <= i < count ->
          exists p, participants !! Z.to_nat i = Some p
                    /\ p !! "ticket_number"
                       = Some (zero_padded (start_ticket + i) width))
    /\ map (fun t => t ≫= ticket_value) (ticket_numbers participants)
       = map (fun i => Some (start_ticket + i)) (range count)
    /\ (forall t, Some t ∈ ticket_numbers participants <->
                  exists k, start_ticket <= k <= start_ticket + count - 1
                            /\ t = zero_padded k width)
    /\ NoDup (ticket_numbers participants).
Proof.
  intros Hcount Hfits width.
  exists (batch_at w count start_ticket), (advance (2 * Z.to_nat count) w).
  split; [by apply generate_participants_run |].
  split; [unfold batch_at; rewrite length_map, length_seq; lia |].
  split.
  { intros i Hi. exists (participant_at w count start_ticket (Z.to_nat i)). split.
    - unfold batch_at. apply list_lookup_fmap_Some. exists (Z.to_nat i).
      split; [done |]. apply lookup_seq. lia.
    - rewrite participant_at_ticket, zfill_zero_padded.
      by rewrite Z2Nat.id by lia. }
  rewrite ticket_numbers_batch_at. fold width.
  split.
  { rewrite map_map. apply map_ext. intros i. simpl. apply ticket_value_zfill. }
  split.
  { intros t. rewrite list_elem_of_In, in_map_iff. split.
    - intros (i & [= <-] & Hi). apply list_elem_of_In, elem_of_range in Hi.
      exists (start_ticket + i). split; [lia | apply zfill_zero_padded].
    - intros (k & Hk & ->). exists (k - start_ticket). split.
      + rewrite zfill_zero_padded. do 2 f_equal. lia.
      + apply list_elem_of_In, elem_of_range. lia. }
  unfold range. rewrite map_map.
  assert (Inj (=) (=) (fun i : nat =>
            Some (zfill (py_str (start_ticket + Z.of_nat i)) width))) as Hinj.
  { intros i j [= Hij]. apply zfill_py_str_inj in Hij. lia. }
  apply (NoDup_fmap_2 _ _ (NoDup_seq 0 (Z.to_nat count))).
Qed.

Lemma generate_participants_tickets_witness :
  exists participants w',
    generate_participants 3 8 world0 = (Returns participants, w')
    /\ ticket_numbers participants = [Some "08"; Some "09"; Some "10"]
    /\ zero_padded 8 2 = "08".
Proof.
  destruct (generate_participants_tickets 3 8 world0 ltac:(lia))
    as (ps & w' & Hrun & _ & Hticket & _).
  { right. split; apply printable_small; lia. }
  exists ps, w'. split; [exact Hrun |].
  destruct (Hticket 0 ltac:(lia)) as (p0 & H0 & Ht0).
  destruct (Hticket 1 ltac:(lia)) as (p1 & H1 & Ht1).
  destruct (Hticket 2 ltac:(lia)) as (p2 & H2 & Ht2).
  apply generate_participants_returns in Hrun as (_ & -> & _).
  split; [| reflexivity].
  unfold ticket_numbers, batch_at in *.
  change (Z.to_nat 3) with 3%nat in *. simpl seq in *. simpl map in *.
  simpl in H0, H1, H2. simplify_eq.
  rewrite Ht0, Ht1, Ht2. reflexivity.
Defined.

(** C1 as stated fails: not every [start_ticket] gives a batch.  A ticket
    number of 4301 digits makes [str] raise [ValueError]. *)
Lemma generate_participants_digit_limit :
  ~ exists participants w',
      generate_participants 1 (10 ^ int_max_str_digits) world0
      = (Returns participants, w').
Proof.
  intros (ps & w' & Hrun).
  apply generate_participants_returns in Hrun as ([Hcount | [Hfirst _]] & _).
  - lia.
  - by apply not_printable_limit.
Qed.

(** C2: for every [count >= 1] and [start_ticket >= 1], all ticket numbers
    of the batch that [generate_participants] returns have the same length,
    the number of decimal digits of the last ticket number
    [start_ticket + count - 1]; and it returns a batch whenever [str]
    converts the last ticket number. *)
Theorem generate_participants_width (count start_ticket : Z) (w : World) :
  1 <= count -> 1 <= start_ticket ->
  let last := start_ticket + count - 1 in
  let width := Str.length (py_str last) in
  10 ^ (Z.of_nat width - 1) <= last < 10 ^ Z.of_nat width
  /\ (printable last ->
      exists participants w',
        generate_participants count start_ticket w = (Returns participants, w'))
  /\ forall participants w',
       generate_participants count start_ticket w = (Returns participants, w') ->
       Forall (fun p => exists t, p !! "ticket_number" = Some t
                                  /\ Str.length t = width) participants.
Proof.
  intros Hcount Hstart last width.
  split; [apply length_py_str_digits; lia |].
  split.
  { intros Hlast. do 2 eexists. apply generate_participants_run.
    right. split; [| done].
    unfold printable in *. fold last in Hlast.
    generalize dependent (10 ^ int_max_str_digits). intros; lia. }
  intros participants w' (_ & -> & _)%generate_participants_returns.
  apply Forall_forall. intros p Hp.
  apply list_elem_of_In, in_map_iff in Hp as (i & <- & Hi%in_seq).
  eexists. split; [apply participant_at_ticket |].
  rewrite length_zfill. fold last. fold width.
  assert (Str.length (py_str (start_ticket + Z.of_nat i)) <= width)%nat; [| lia].
  apply length_py_str_mono; lia.
Qed.

Lemma generate_participants_width_witness :
  exists participants w',
    generate_participants 100 950 world0 = (Returns participants, w')
    /\ Forall (fun p => exists t, p !! "ticket_number" = Some t
                                  /\ Str.length t = 4%nat) participants.
Proof.
  destruct (generate_participants_width 100 950 world0 ltac:(lia) ltac:(lia))
    as (_ & Hreturns & Hlen).
  destruct Hreturns as (ps & w' & Hrun); [apply printable_small; lia |].
  exists ps, w'. split; [exact Hrun | exact (Hlen ps w' Hrun)].
Defined.

(** C8: every record that [generate_participants] returns has a [first]
    entry from [first_names] and a [last] entry from [last_names]; and it
    returns a batch whenever [str] converts the ticket numbers. *)
Theorem generate_participants_names (count start_ticket : Z) (w : World) :
  (printable_range count start_ticket ->
   exists participants w',
     generate_participants count start_ticket w = (Returns participants, w'))
  /\ forall participants w',
       generate_participants count start_ticket w = (Returns participants, w') ->
       Forall (fun p => exists first last,
                   p !! "first" = Some first /\ first ∈ first_names
                   /\ p !! "last" = Some last /\ last ∈ last_names)
              participants.
Proof.
  split; [intros Hfits; do 2 eexists; by apply generate_participants_run |].
  intros participants w' (_ & -> & _)%generate_participants_returns.
  apply Forall_forall. intros p Hp.
  apply list_elem_of_In, in_map_iff in Hp as (i & <- & _).
  do 2 eexists.
  split; [apply participant_at_first |]. split; [by apply pick_elem_of |].
  split; [apply participant_at_last |]. by apply pick_elem_of.
Qed.

Lemma generate_participants_names_witness :
  exists participants w',
    generate_participants 3 10001 world0 = (Returns participants, w')
    /\ Forall (fun p => exists first last,
                   p !! "first" = Some first /\ first ∈ first_names
                   /\ p !! "last" = Some last /\ last ∈ last_names)
              participants.
Proof.
  destruct (generate_participants_names 3 10001 world0) as [Hreturns Hnames].
  destruct Hreturns as (ps & w' & Hrun).
  { right. split; apply printable_small; lia. }
  exists ps, w'. split; [exact Hrun | exact (Hnames ps w' Hrun)].
Defined.

(** C6, as the code has it: [generate_participants] does not check
    [count].  For a negative [count] it returns the empty list and leaves
    the state as it is.  Its one error condition is the [ValueError] of
    [str]: it returns whenever [str] converts the ticket numbers, and it
    raises, [ValueError] and nothing else, exactly when there is a round
    ([count >= 1]) and [start_ticket] or [start_ticket + count - 1] has
    more than 4300 digits. *)
Theorem generate_participants_errors (count start_ticket : Z) (w : World) :
  (count < 0 -> generate_participants count start_ticket w = (Returns [], w))
  /\ (printable_range count start_ticket ->
      exists participants w',
        generate_participants count start_ticket w = (Returns participants, w'))
  /\ (~ printable_range count start_ticket ->
      generate_participants count start_ticket w
      = (Raises ValueError, advance 2 w))
  /\ (forall e w',
        generate_participants count start_ticket w = (Raises e, w') ->
        e = ValueError /\ 1 <= count
        /\ ~ (printable start_ticket /\ printable (start_ticket + count - 1))).
Proof.
  split.
  { intros Hcount. rewrite generate_participants_run by (left; lia).
    unfold batch_at. replace (Z.to_nat count) with 0%nat by lia.
    by rewrite advance_0. }
  split; [intros Hfits; do 2 eexists; by apply generate_participants_run |].
  split; [apply generate_participants_raises |].
  intros e w' Hrun.
  destruct (printable_range_dec count start_ticket) as [Hfits|Hfits].
  - rewrite generate_participants_run in Hrun by done. done.
  - rewrite generate_participants_raises in Hrun by done.
    injection Hrun as <- _. split; [done |].
    unfold printable_range in Hfits. split; [lia | tauto].
Qed.

Lemma generate_participants_errors_witness :
  generate_participants (-1) 1 world0 = (Returns [], world0)
  /\ (exists participants w',
        generate_participants 3 10001 world0 = (Returns participants, w'))
  /\ generate_participants 1 (10 ^ int_max_str_digits) world0
     = (Raises ValueError, advance 2 world0).
Proof.
  split; [apply (generate_participants_errors (-1) 1 world0); lia |].
  split.
  - apply (generate_participants_errors 3 10001 world0).
    right. split; apply printable_small; lia.
  - apply (generate_participants_errors 1 (10 ^ int_max_str_digits) world0).
    intros [Hcount | [Hfirst _]]; [lia | by apply not_printable_limit].
Defined.

(** C6 as stated fails: a negative [count] raises nothing. *)
Lemma generate_participants_negative_no_error :
  ~ exists e w', generate_participants (-1) 1 world0 = (Raises e, w').
Proof.
  intros (e & w' & Hrun).
  rewrite generate_participants_run in Hrun by (left; lia). discriminate.
Qed.

End GeneratorClaims.

(** * The CSV serializer *)

Section SerializerClaims.

(** C4: for every sequence of participant records, [write_csv] writes a
    file that begins with the header line [first,last,ticket_number],
    followed by one line per record, in the order of the sequence; the
    fields of a line are separated by commas, and a field that contains a
    comma, a double quote or a line break is written between double quotes
    with its double quotes doubled ([rfc4180_line]).  No other file
    changes. *)
Theorem write_csv_rows (filename : string)
    (participants : list (gmap string string)) (w : World) :
  Forall writable participants ->
  exists w',
    write_csv filename participants w = (Returns tt, w')
    /\ files w' !! filename
       = Some (("first,last,ticket_number" +:+ lineterminator)
               +:+ Str.concat (map (fun p => rfc4180_line (participant_fields p))
                                   participants))
    /\ forall other, other <> filename -> files w' !! other = files w !! other.
Proof.
  intros Hall. eexists. split; [by apply write_csv_run |].
  simpl. split; [by rewrite lookup_insert_eq |].
  intros other Hother. by rewrite lookup_insert_ne.
Qed.

Lemma write_csv_rows_witness :
  exists w',
    write_csv "t.csv"
      [ {[ "first" := "Ann"; "last" := "Lee"; "ticket_number" := "10001" ]};
        {[ "first" := "a,b"; "last" := String quotechar "x" ]} ] world0
    = (Returns tt, w')
    /\ files w' !! "t.csv"
       = Some ("first,last,ticket_number" +:+ lineterminator
               +:+ "Ann,Lee,10001" +:+ lineterminator
               +:+ String quotechar ("a,b" +:+ String quotechar
                     ("," +:+ String quotechar (String quotechar (String quotechar
                        ("x" +:+ String quotechar ("," +:+ lineterminator))))))).
Proof.
  destruct (write_csv_rows "t.csv"
      [ {[ "first" := "Ann"; "last" := "Lee"; "ticket_number" := "10001" ]};
        {[ "first" := "a,b"; "last" := String quotechar "x" ]} ] world0)
    as (w' & Hrun & Hfile & _).
  { constructor; [| constructor; [| constructor]].
    - unfold writable. rewrite !dom_insert_L, dom_singleton_L. set_solver.
    - unfold writable. rewrite !dom_insert_L, dom_singleton_L. set_solver. }
  exists w'. split; [exact Hrun |]. rewrite Hfile. reflexivity.
Defined.

(** C3: whatever the list of records, the file that [write_csv] has written
    can be parsed back into records, and writing these records with
    [write_csv] gives the same file, byte for byte. *)
Theorem write_csv_roundtrip (filename : string)
    (participants : list (gmap string string)) (w : World) :
  exists text parsed,
    files (write_csv filename participants w).2 !! filename = Some text
    /\ DictReader text = Some parsed
    /\ forall filename' w',
         (write_csv filename' parsed w').1 = Returns tt
         /\ files (write_csv filename' parsed w').2 !! filename' = Some text.
Proof.
  exists (csv_text (accepted participants)), (map read_back (accepted participants)).
  split; [apply write_csv_file |].
  split; [apply DictReader_csv_text |].
  intros filename' w'.
  assert (Forall writable (map read_back (accepted participants))) as Hall.
  { apply Forall_forall. intros p Hp.
    apply list_elem_of_In, in_map_iff in Hp as (q & <- & _).
    apply read_back_writable. }
  rewrite write_csv_run by done. simpl.
  by rewrite lookup_insert_eq, csv_text_read_back.
Qed.

(** The records of a batch come back as they were generated. *)
Lemma read_back_participant_at w count start_ticket i :
  read_back (participant_at w count start_ticket i)
  = participant_at w count start_ticket i.
Proof.
  unfold read_back, participant_fields.
  rewrite participant_at_first, participant_at_last, participant_at_ticket.
  unfold participant_at, dict. simpl.
  apply map_eq. intros k.
  destruct (decide (k = "first")) as [->|]; [by simplify_map_eq |].
  destruct (decide (k = "last")) as [->|]; [by simplify_map_eq |].
  destruct (decide (k = "ticket_number")) as [->|]; by simplify_map_eq.
Qed.

(** C7: for [count = 0] the loop of [generate_participants] has no round,
    whatever its body, so nothing of the body (the width of the padding
    least of all) is computed; [generate_participants] returns the empty
    list, and writing it gives a file with the header line only.  Neither
    call raises. *)
Theorem generate_write_zero (start_ticket : Z) (filename : string) (w : World) :
  (forall (body : Z -> list (gmap string string) -> M (list (gmap string string))) acc,
      for_in (range 0) body acc = ret acc)
  /\ generate_participants 0 start_ticket w = (Returns [], w)
  /\ exists w',
       write_csv filename [] w = (Returns tt, w')
       /\ files w' !! filename = Some ("first,last,ticket_number" +:+ lineterminator).
Proof.
  split; [done |]. split.
  - rewrite generate_participants_run by (by left). by rewrite advance_0.
  - eexists. split; [by apply write_csv_run |].
    simpl. by rewrite lookup_insert_eq.
Qed.

(** C10: for every [count <= 0] [generate_participants] returns the empty
    list and raises nothing, and writing that batch gives a file with the
    header line only. *)
Theorem generate_write_nonpositive (count start_ticket : Z) (filename : string)
    (w : World) :
  count <= 0 ->
  generate_participants count start_ticket w = (Returns [], w)
  /\ exists w',
       (participants <- generate_participants count start_ticket ;;
        write_csv filename participants) w = (Returns tt, w')
       /\ files w' !! filename = Some ("first,last,ticket_number" +:+ lineterminator).
Proof.
  intros Hcount.
  assert (generate_participants count start_ticket w = (Returns [], w)) as Hrun.
  { rewrite generate_participants_run by (by left). unfold batch_at.
    replace (Z.to_nat count) with 0%nat by lia. by rewrite advance_0. }
  split; [done |].
  eexists. split.
  - erewrite bind_returns by exact Hrun. by apply write_csv_run.
  - simpl. by rewrite lookup_insert_eq.
Qed.

Lemma generate_write_nonpositive_witness :
  generate_participants (-7) 10001 world0 = (Returns [], world0)
  /\ exists w',
       (participants <- generate_participants (-7) 10001 ;;
        write_csv "raffle.csv" participants) world0 = (Returns tt, w')
       /\ files w' !! "raffle.csv"
          = Some ("first,last,ticket_number" +:+ lineterminator).
Proof. apply (generate_write_nonpositive (-7) 10001 "raffle.csv" world0). lia. Defined.

End SerializerClaims.

(** * The name tables *)

Section NameTableClaims.

Lemma names_plain :
  Forall (fun name => name <> EmptyString /\ Str.existsb needs_quotes name = false)
         (first_names ++ last_names).
Proof.
  unfold first_names, last_names. simpl app.
  repeat (constructor; [by split |]). constructor.
Qed.

Lemma pick_plain names raw :
  names <> [] ->
  Forall (fun name => name <> EmptyString /\ Str.existsb needs_quotes name = false) names ->
  field_quoted (pick names raw) = false.
Proof.
  intros Hne Hall. rewrite field_quoted_needs_quotes.
  pose proof (pick_elem_of names raw Hne) as Hin.
  rewrite Forall_forall in Hall. by apply Hall.
Qed.

Lemma ticket_not_quoted z width : field_quoted (zfill (py_str z) width) = false.
Proof.
  unfold field_quoted. rewrite string_existsb_forallb.
  rewrite (string_forallb_impl ticket_char); [done | | apply ticket_chars].
  intros c. unfold ticket_char. rewrite special_needs_quotes.
  destruct c as [[] [] [] [] [] [] [] []]; done.
Qed.

(** C9, as the code has it: [first_names] has 56 entries and [last_names]
    has 55; no entry is empty and none contains a comma, a double quote or
    a line break.  So [random.choice] on either table returns an entry of
    the table and never raises, and [csv.writer] quotes no field of a
    record that [generate_participants] returns. *)
Theorem name_tables_plain :
  length first_names = 56%nat
  /\ length last_names = 55%nat
  /\ Forall (fun name => name <> EmptyString
                         /\ Str.existsb needs_quotes name = false)
            (first_names ++ last_names)
  /\ (forall w, exists first last w1 w2,
        choice first_names w = (Returns first, w1) /\ first ∈ first_names
        /\ choice last_names w = (Returns last, w2) /\ last ∈ last_names)
  /\ (forall count start_ticket w participants w',
        generate_participants count start_ticket w = (Returns participants, w') ->
        Forall (map_Forall (fun _ value => field_quoted value = false))
               participants).
Proof.
  split; [done |]. split; [done |]. split; [apply names_plain |].
  pose proof names_plain as [Hfirst Hlast]%Forall_app.
  split.
  - intros w. do 4 eexists.
    split; [by apply choice_nonempty |]. split; [by apply pick_elem_of |].
    split; [by apply choice_nonempty |]. by apply pick_elem_of.
  - intros count start_ticket w participants w'
           (_ & -> & _)%generate_participants_returns.
    apply Forall_forall. intros p Hp.
    apply list_elem_of_In, in_map_iff in Hp as (i & <- & _).
    intros key value. unfold participant_at.
    rewrite !lookup_insert, lookup_singleton.
    repeat case_decide; intros [= <-];
      [by apply pick_plain | by apply pick_plain | apply ticket_not_quoted].
Qed.

Lemma name_tables_plain_witness :
  exists participants w',
    generate_participants 3 10001 world0 = (Returns participants, w')
    /\ Forall (map_Forall (fun _ value => field_quoted value = false))
              participants.
Proof.
  exists (batch_at world0 3 10001), (advance (2 * Z.to_nat 3) world0).
  assert (generate_participants 3 10001 world0
          = (Returns (batch_at world0 3 10001), advance (2 * Z.to_nat 3) world0))
    as Hrun.
  { apply generate_participants_run. right. split; apply printable_small; lia. }
  split; [exact Hrun |].
  destruct name_tables_plain as (_ & _ & _ & _ & Hplain).
  exact (Hplain 3 10001 world0 _ _ Hrun).
Defined.

(** C9 as stated fails: the tables do not have 56 entries each. *)
Lemma name_tables_not_both_56 :
  ~ (length first_names = 56%nat /\ length last_names = 56%nat).
Proof. intros [_ Hlast]. discriminate Hlast. Qed.

End NameTableClaims.

(** * The batch driver *)

Section DriverClaims.

Lemma files_printed w msg : files (printed w msg) = files w.
Proof. reflexivity. Qed.

Lemma stdout_printed w msg : stdout (printed w msg) = stdout w ++ [msg].
Proof. reflexivity. Qed.

Lemma length_batch_at w count start_ticket :
  length (batch_at w count start_ticket) = Z.to_nat count.
Proof. unfold batch_at. by rewrite length_map, length_seq. Qed.

Lemma batch_at_values w count start_ticket :
  map (fun t => t ≫= ticket_value) (ticket_numbers (batch_at w count start_ticket))
  = map (fun i => Some (start_ticket + i)) (range count).
Proof.
  rewrite ticket_numbers_batch_at, map_map.
  apply map_ext. intros i. apply ticket_value_zfill.
Qed.

Lemma run_batch_run batch w :
  printable_range batch.1.2 batch.2 ->
  run_batch batch w = (Returns tt, after_batch w batch).
Proof.
  destruct batch as [[filename count] start_ticket]. simpl. intros Hfits.
  unfold run_batch, after_batch.
  erewrite bind_returns by (by apply generate_participants_run).
  rewrite write_csv_run by apply batch_at_writable.
  by rewrite length_batch_at.
Qed.

Lemma run_batches table w :
  Forall (fun batch : string * Z * Z => printable_range batch.1.2 batch.2) table ->
  for_in table (fun batch _ => run_batch batch) tt w
  = (Returns tt, foldl after_batch w table).
Proof.
  intros Hall. revert w.
  induction Hall as [|batch table Hbatch Htable IH]; intros w; [done |].
  rewrite for_in_cons. erewrite bind_returns by (by apply run_batch_run).
  by rewrite IH.
Qed.

Lemma batch_driver_run table w :
  Forall (fun batch : string * Z * Z => printable_range batch.1.2 batch.2) table ->
  batch_driver table w
  = (Returns tt,
     printed
       (printed (foldl after_batch w table)
                (String LF "🎉 All sample CSV files generated successfully!"))
       "Files are located in: apps/spinner-extension/samples/").
Proof.
  intros Hall. unfold batch_driver.
  erewrite bind_returns by (by apply run_batches).
  by erewrite bind_returns by reflexivity.
Qed.

Lemma batches_printable :
  Forall (fun batch : string * Z * Z => printable_range batch.1.2 batch.2) batches.
Proof.
  unfold batches.
  repeat (constructor; [right; split; apply printable_small; simpl; lia |]).
  constructor.
Qed.

Lemma main_run w :
  main w
  = (Returns tt,
     printed
       (printed (foldl after_batch w batches)
                (String LF "🎉 All sample CSV files generated successfully!"))
       "Files are located in: apps/spinner-extension/samples/").
Proof.
  unfold main.
  do 5 (erewrite bind_returns
          by (apply generate_participants_run;
              right; split; apply printable_small; lia);
        erewrite bind_returns by (apply write_csv_run, batch_at_writable);
        rewrite length_batch_at).
  erewrite bind_returns by reflexivity.
  unfold batches. cbn [foldl after_batch].
  reflexivity.
Qed.

Lemma generated_messages :
  map (fun batch : string * Z * Z =>
         generated_message batch.1.1 (Z.to_nat batch.1.2)) batches
  = [ "✅ Generated raffle-5k.csv: 5,000 entries";
      "✅ Generated raffle-10k.csv: 10,000 entries";
      "✅ Generated raffle-25k.csv: 25,000 entries";
      "✅ Generated raffle-50k.csv: 50,000 entries";
      "✅ Generated raffle-100k.csv: 100,000 entries" ].
Proof. vm_compute. reflexivity. Qed.

Lemma stdout_after_batches table w :
  stdout (foldl after_batch w table)
  = stdout w ++ map (fun batch : string * Z * Z =>
                       generated_message batch.1.1 (Z.to_nat batch.1.2)) table.
Proof.
  revert w. induction table as [|[[filename count] start_ticket] table IH]; intros w.
  - simpl. by rewrite app_nil_r.
  - change (foldl after_batch w ((filename, count, start_ticket) :: table))
      with (foldl after_batch (after_batch w (filename, count, start_ticket)) table).
    rewrite IH. unfold after_batch at 1, printed, written, advance.
    cbn [stdout]. by rewrite <- (assoc_L (++)).
Qed.

Lemma files_after_batches_other table w filename :
  filename ∉ map (fun batch : string * Z * Z => batch.1.1) table ->
  files (foldl after_batch w table) !! filename = files w !! filename.
Proof.
  revert w. induction table as [|[[name count] start_ticket] table IH]; intros w Hnot.
  - done.
  - change (foldl after_batch w ((name, count, start_ticket) :: table))
      with (foldl after_batch (after_batch w (name, count, start_ticket)) table).
    apply not_elem_of_cons in Hnot as [Hname Hnot].
    rewrite IH by done. unfold after_batch, printed, written, advance.
    cbn [files]. by rewrite lookup_insert_ne.
Qed.

(** Every batch of a table with distinct file names leaves its file. *)
Lemma files_after_batches table w filename count start_ticket :
  NoDup (map (fun batch : string * Z * Z => batch.1.1) table) ->
  (filename, count, start_ticket) ∈ table ->
  exists w0,
    files (foldl after_batch w table) !! filename
    = Some (csv_text (batch_at w0 count start_ticket)).
Proof.
  revert w. induction table as [|[[name n] s] table IH]; intros w Hnodup Hin.
  - by apply elem_of_nil in Hin.
  - change (foldl after_batch w ((name, n, s) :: table))
      with (foldl after_batch (after_batch w (name, n, s)) table).
    apply NoDup_cons in Hnodup as [Hname Hnodup].
    apply elem_of_cons in Hin as [[= -> -> ->]|Hin].
    + exists w. rewrite files_after_batches_other by done.
      unfold after_batch, printed, written, advance. cbn [files].
      by rewrite lookup_insert_eq.
    + by apply IH.
Qed.

Lemma batches_counts :
  Forall (fun batch : string * Z * Z => 0 <= batch.1.2) batches.
Proof. unfold batches. repeat (constructor; [simpl; lia |]). constructor. Qed.

Lemma batches_names :
  NoDup (map (fun batch : string * Z * Z => batch.1.1) batches).
Proof. apply (bool_decide_unpack _). by vm_compute. Qed.

Lemma stdout_after_main w :
  stdout
    (printed
       (printed (foldl after_batch w batches)
                (String LF "🎉 All sample CSV files generated successfully!"))
       "Files are located in: apps/spinner-extension/samples/")
  = stdout w ++
    [ "✅ Generated raffle-5k.csv: 5,000 entries";
      "✅ Generated raffle-10k.csv: 10,000 entries";
      "✅ Generated raffle-25k.csv: 25,000 entries";
      "✅ Generated raffle-50k.csv: 50,000 entries";
      "✅ Generated raffle-100k.csv: 100,000 entries";
      String LF "🎉 All sample CSV files generated successfully!";
      "Files are located in: apps/spinner-extension/samples/" ].
Proof.
  rewrite !stdout_printed, stdout_after_batches, generated_messages.
  by rewrite <- !(assoc_L (++)).
Qed.

Lemma files_after_main w filename count start_ticket :
  (filename, count, start_ticket) ∈ batches ->
  exists participants,
    files
      (printed
         (printed (foldl after_batch w batches)
                  (String LF "🎉 All sample CSV files generated successfully!"))
         "Files are located in: apps/spinner-extension/samples/")
    !! filename = Some (csv_text participants)
    /\ Z.of_nat (length participants) = count
    /\ map (fun t => t ≫= ticket_value) (ticket_numbers participants)
       = map (fun i => Some (start_ticket + i)) (range count).
Proof.
  intros Hin. rewrite !files_printed.
  destruct (files_after_batches batches w filename count start_ticket)
    as [w0 Hfile]; [apply batches_names | done |].
  exists (batch_at w0 count start_ticket).
  split; [done |]. split; [| apply batch_at_values].
  rewrite length_batch_at. apply Z2Nat.id.
  pose proof batches_counts as Hcounts. rewrite Forall_forall in Hcounts.
  apply (Hcounts _ Hin).
Qed.

(** C5: [main] runs the five configured batches in order,
    [raffle-5k.csv] with 5000 records from ticket 10001,
    [raffle-10k.csv] with 10000 from 20001, [raffle-25k.csv] with 25000
    from 50001, [raffle-50k.csv] with 50000 from 100001 and
    [raffle-100k.csv] with 100000 from 200001, and nothing else: it is the
    batch driver over this table; the last tickets are 15000, 30000, 75000,
    150000 and 300000.  [main] returns, has printed one line per batch in
    this order with the file name and the number of records, then the two
    closing lines, and has left for each batch a file with the header and
    the records of the tickets [start_ticket .. start_ticket + count - 1]. *)
Theorem main_batches (w : World) :
  length batches = 5%nat
  /\ main w = batch_driver batches w
  /\ map last_ticket batches = [15000; 30000; 75000; 150000; 300000]
  /\ exists w',
       main w = (Returns tt, w')
       /\ stdout w'
          = stdout w ++
            [ "✅ Generated raffle-5k.csv: 5,000 entries";
              "✅ Generated raffle-10k.csv: 10,000 entries";
              "✅ Generated raffle-25k.csv: 25,000 entries";
              "✅ Generated raffle-50k.csv: 50,000 entries";
              "✅ Generated raffle-100k.csv: 100,000 entries";
              String LF "🎉 All sample CSV files generated successfully!";
              "Files are located in: apps/spinner-extension/samples/" ]
       /\ Forall (fun batch : string * Z * Z =>
                    let '(filename, count, start_ticket) := batch in
                    exists participants,
                      files w' !! filename = Some (csv_text participants)
                      /\ Z.of_nat (length participants) = count
                      /\ map (fun t => t ≫= ticket_value) (ticket_numbers participants)
                         = map (fun i => Some (start_ticket + i)) (range count))
                 batches.
Proof.
  split; [reflexivity |].
  split; [by rewrite main_run, batch_driver_run by apply batches_printable |].
  split; [reflexivity |].
  eexists. split; [apply main_run |].
  split; [apply stdout_after_main |].
  apply Forall_forall. intros [[filename count] start_ticket] Hin.
  by apply files_after_main.
Qed.

End DriverClaims.

(** * Further properties of the generator *)

Section GeneratorFootprint.

(** X1: whatever the outcome of [generate_participants], a batch or the
    [ValueError] of [str], the files and the standard output stay as they
    are.  A run that returns has made one record per round and has
    consumed two random values per record; a run that raises has consumed
    two. *)
Theorem generate_participants_footprint (count start_ticket : Z) (w : World)
    (result : outcome (list (gmap string string))) (w' : World) :
  generate_participants count start_ticket w = (result, w') ->
  tape w' = tape w /\ files w' = files w /\ stdout w' = stdout w
  /\ (forall participants, result = Returns participants ->
        Z.of_nat (length participants) = Z.max 0 count
        /\ Z.of_nat (cursor w') = Z.of_nat (cursor w) + 2 * Z.max 0 count)
  /\ (forall e, result = Raises e ->
        Z.of_nat (cursor w') = Z.of_nat (cursor w) + 2).
Proof.
  intros Hrun.
  destruct (printable_range_dec count start_ticket) as [Hfits|Hfits].
  - rewrite generate_participants_run in Hrun by done. injection Hrun as <- <-.
    unfold advance. cbn [tape cursor files stdout].
    do 3 (split; [done |]). split; [| done].
    intros ps [= <-]. unfold batch_at. rewrite length_map, length_seq. lia.
  - rewrite generate_participants_raises in Hrun by done. injection Hrun as <- <-.
    unfold advance. cbn [tape cursor files stdout].
    do 3 (split; [done |]). split; [done |]. intros e _. lia.
Qed.

Lemma generate_participants_footprint_witness :
  exists participants w',
    generate_participants 3 8 world0 = (Returns participants, w')
    /\ Z.of_nat (length participants) = 3
    /\ Z.of_nat (cursor w') = 6
    /\ files w' = files world0.
Proof.
  exists (batch_at world0 3 8), (advance (2 * Z.to_nat 3) world0).
  assert (generate_participants 3 8 world0
          = (Returns (batch_at world0 3 8), advance (2 * Z.to_nat 3) world0))
    as Hrun.
  { apply generate_participants_run. right. split; apply printable_small; lia. }
  destruct (generate_participants_footprint 3 8 world0 _ _ Hrun)
    as (_ & Hfiles & _ & Hreturns & _).
  destruct (Hreturns _ eq_refl) as [Hlen Hcursor].
  split; [exact Hrun |]. split; [exact Hlen |]. split; [exact Hcursor | exact Hfiles].
Defined.

Lemma participant_at_record w count start_ticket i :
  participant_record (participant_at w count start_ticket i).
Proof.
  unfold participant_record, participant_at.
  rewrite !dom_insert_L, dom_singleton_L. set_solver.
Qed.

Lemma zfill_width_self s : zfill s (Str.length s) = s.
Proof. unfold zfill. by rewrite Nat.leb_refl. Qed.

Lemma zfill_short s width : (width <= Str.length s)%nat -> zfill s width = s.
Proof. intros Hw. unfold zfill. apply Nat.leb_le in Hw. by rewrite Hw. Qed.

(** A positive integer between [10^(d-1)] and [10^d] has [d] digits. *)
Lemma length_py_str_unique z d :
  1 <= z -> 10 ^ (d - 1) <= z < 10 ^ d -> Z.of_nat (Str.length (py_str z)) = d.
Proof.
  intros Hz [Hl Hu].
  destruct (length_py_str_digits z Hz) as [Hl' Hu'].
  set (len := Z.of_nat (Str.length (py_str z))) in *.
  destruct (Z.lt_trichotomy len d) as [Hlt | [Heq | Hgt]]; [| done |]; exfalso.
  - assert (10 ^ len <= 10 ^ (d - 1)) by (apply Z.pow_le_mono_r; lia). lia.
  - assert (10 ^ d <= 10 ^ (len - 1)) by (apply Z.pow_le_mono_r; lia). lia.
Qed.

Lemma batch_at_unpadded w count start_ticket d :
  1 <= count -> 1 <= start_ticket ->
  10 ^ (d - 1) <= start_ticket -> start_ticket + count - 1 < 10 ^ d ->
  ticket_numbers (batch_at w count start_ticket)
  = map (fun i => Some (py_str (start_ticket + i))) (range count).
Proof.
  intros Hcount Hstart Hl Hu.
  rewrite ticket_numbers_batch_at.
  apply map_ext_in. intros i Hi%list_elem_of_In%elem_of_range.
  f_equal. apply zfill_short.
  assert (Z.of_nat (Str.length (py_str (start_ticket + count - 1))) = d) as Hlast.
  { apply length_py_str_unique; lia. }
  assert (Z.of_nat (Str.length (py_str (start_ticket + i))) = d) as Hi'.
  { apply length_py_str_unique; lia. }
  lia.
Qed.

(** X6: when the first and the last ticket of a batch have the same
    number [d] of decimal digits, no ticket number of the batch that
    [generate_participants] returns is padded: the ticket numbers are the
    plain decimal strings. *)
Theorem generate_participants_unpadded (count start_ticket d : Z) (w : World)
    (participants : list (gmap string string)) (w' : World) :
  1 <= count -> 1 <= start_ticket ->
  10 ^ (d - 1) <= start_ticket -> start_ticket + count - 1 < 10 ^ d ->
  generate_participants count start_ticket w = (Returns participants, w') ->
  ticket_numbers participants
  = map (fun i => Some (py_str (start_ticket + i))) (range count).
Proof.
  intros Hcount Hstart Hl Hu (_ & -> & _)%generate_participants_returns.
  by apply (batch_at_unpadded w count start_ticket d).
Qed.

Lemma generate_participants_unpadded_witness :
  exists participants w',
    generate_participants 5000 10001 world0 = (Returns participants, w')
    /\ ticket_numbers participants
       = map (fun i => Some (py_str (10001 + i))) (range 5000).
Proof.
  exists (batch_at world0 5000 10001), (advance (2 * Z.to_nat 5000) world0).
  assert (generate_participants 5000 10001 world0
          = (Returns (batch_at world0 5000 10001),
             advance (2 * Z.to_nat 5000) world0)) as Hrun.
  { apply generate_participants_run. right. split; apply printable_small; lia. }
  split; [exact Hrun |].
  exact (generate_participants_unpadded 5000 10001 5 world0 _ _
           ltac:(lia) ltac:(lia) ltac:(lia) ltac:(lia) Hrun).
Defined.

(** X7: for [count >= 1] the last ticket number of the batch that
    [generate_participants] returns is never padded: it is the decimal
    string of [start_ticket + count - 1], whatever the sign of
    [start_ticket]. *)
Theorem generate_participants_last_ticket (count start_ticket : Z) (w : World)
    (participants : list (gmap string string)) (w' : World) :
  1 <= count ->
  generate_participants count start_ticket w = (Returns participants, w') ->
  last (ticket_numbers participants)
  = Some (Some (py_str (start_ticket + count - 1))).
Proof.
  intros Hcount (_ & -> & _)%generate_participants_returns.
  rewrite ticket_numbers_batch_at, last_lookup. unfold range.
  rewrite !length_map, length_seq.
  rewrite map_map.
  change (map ?f ?l) with (f <$> l).
  rewrite list_lookup_fmap, lookup_seq_lt by lia. simpl.
  replace (start_ticket + Z.of_nat (Nat.pred (Z.to_nat count)))
    with (start_ticket + count - 1) by lia.
  by rewrite zfill_width_self.
Qed.

Lemma generate_participants_last_ticket_witness :
  exists participants w',
    generate_participants 12 (-3) world0 = (Returns participants, w')
    /\ last (ticket_numbers participants) = Some (Some "8").
Proof.
  exists (batch_at world0 12 (-3)), (advance (2 * Z.to_nat 12) world0).
  assert (generate_participants 12 (-3) world0
          = (Returns (batch_at world0 12 (-3)), advance (2 * Z.to_nat 12) world0))
    as Hrun.
  { apply generate_participants_run. right. split; apply printable_small; lia. }
  split; [exact Hrun |].
  apply (generate_participants_last_ticket 12 (-3) world0 _ _ ltac:(lia) Hrun).
Defined.

(** X12: the random state decides the names only, the ticket range the
    ticket numbers only.  For ranges whose ticket numbers [str] converts:
    from the same state two batches of the same size get the same names,
    whatever their first tickets, and consume the same random values; from
    two states the batches of one range get the same ticket numbers. *)
Theorem generate_participants_independent
    (count start_ticket start_ticket' : Z) (w w' : World) :
  printable_range count start_ticket ->
  printable_range count start_ticket' ->
  exists ps1 ps2 ps3 w1 w2 w3,
    generate_participants count start_ticket w = (Returns ps1, w1)
    /\ generate_participants count start_ticket' w = (Returns ps2, w2)
    /\ generate_participants count start_ticket w' = (Returns ps3, w3)
    /\ participant_names ps1 = participant_names ps2
    /\ w1 = w2
    /\ ticket_numbers ps1 = ticket_numbers ps3.
Proof.
  intros Hfits Hfits'.
  do 6 eexists.
  split; [by apply generate_participants_run |].
  split; [by apply generate_participants_run |].
  split; [by apply generate_participants_run |].
  split; [| split; [done |]].
  - unfold participant_names, batch_at. rewrite !map_map.
    apply map_ext. intros i.
    by rewrite !participant_at_first, !participant_at_last.
  - by rewrite !ticket_numbers_batch_at.
Qed.

Lemma generate_participants_independent_witness :
  exists ps1 ps2 ps3 w1 w2 w3,
    generate_participants 3 8 world0 = (Returns ps1, w1)
    /\ generate_participants 3 10001 world0 = (Returns ps2, w2)
    /\ generate_participants 3 8 (advance 5 world0) = (Returns ps3, w3)
    /\ participant_names ps1 = participant_names ps2
    /\ w1 = w2
    /\ ticket_numbers ps1 = ticket_numbers ps3.
Proof.
  apply (generate_participants_independent 3 8 10001 world0 (advance 5 world0));
    right; split; apply printable_small; lia.
Defined.

End GeneratorFootprint.

(** * Ticket numbers as strings *)

Section TicketOrder.

Lemma digit_value_bounds c : is_digit c = true -> 0 <= digit_value c <= 9.
Proof.
  unfold is_digit, digit_value.
  intros [H1%N.leb_le H2%N.leb_le]%andb_true_iff. lia.
Qed.

(** The value of a string of digits behind a prefix of value [acc]. *)
Lemma digits_value_shift acc s a :
  digits_value acc s = Some a ->
  exists v,
    0 <= v < 10 ^ Z.of_nat (Str.length s)
    /\ forall acc', digits_value acc' s
                    = Some (acc' * 10 ^ Z.of_nat (Str.length s) + v).
Proof.
  revert acc a. induction s as [|c s IH]; intros acc a Hval.
  - exists 0. split; [simpl; lia |]. intros acc'. simpl. f_equal. lia.
  - simpl in Hval. destruct (is_digit c) eqn:Hc; [| done].
    destruct (IH _ _ Hval) as (v & Hv & Hall).
    pose proof (digit_value_bounds c Hc) as Hd.
    simpl Str.length. rewrite Nat2Z.inj_succ, Z.pow_succ_r by lia.
    exists (digit_value c * 10 ^ Z.of_nat (Str.length s) + v). split; [nia |].
    intros acc'. simpl. rewrite Hc, Hall. f_equal. ring.
Qed.

(** Strings of digits of one length are ordered as the numbers they
    denote. *)
Lemma digits_compare s t a b :
  Str.length s = Str.length t ->
  digits_value 0 s = Some a -> digits_value 0 t = Some b ->
  a < b -> String.compare s t = Lt.
Proof.
  revert t a b. induction s as [|c s IH]; intros [|d t] a b Hlen Hs Ht Hab;
    try done.
  - simpl in Hs, Ht. simplify_eq. lia.
  - simpl in Hlen. injection Hlen as Hlen.
    simpl in Hs, Ht.
    destruct (is_digit c) eqn:Hc; [| done]. destruct (is_digit d) eqn:Hd; [| done].
    destruct (digits_value_shift _ _ _ Hs) as (vs & Hvs & Hs').
    destruct (digits_value_shift _ _ _ Ht) as (vt & Hvt & Ht').
    rewrite Hs' in Hs. rewrite Ht' in Ht. simplify_eq.
    rewrite <- Hlen in *.
    pose proof (digit_value_bounds c Hc) as Hdc.
    pose proof (digit_value_bounds d Hd) as Hdd.
    simpl. unfold Ascii.compare.
    destruct (N.compare_spec (N_of_ascii c) (N_of_ascii d)) as [Heq|Hlt|Hgt].
    + apply (IH t vs vt); [done | | |].
      * rewrite (Hs' 0). f_equal; lia.
      * rewrite (Ht' 0). f_equal; lia.
      * unfold digit_value in Hab. rewrite Heq in Hab. lia.
    + done.
    + exfalso. unfold digit_value in *. nia.
Qed.

Lemma length_py_str_mono_0 a b :
  0 <= a -> a <= b -> (Str.length (py_str a) <= Str.length (py_str b))%nat.
Proof.
  intros Ha Hab. destruct (decide (a = 0)) as [->|Hne].
  - destruct b as [|p|p]; [done | | lia].
    pose proof (str_N_nonempty (Npos p)) as Hp. simpl.
    destruct (str_N (Npos p)); [done | simpl; lia].
  - apply length_py_str_mono; lia.
Qed.

Lemma zfill_digits z width :
  0 <= z -> Str.forallb is_digit (zfill (py_str z) width) = true.
Proof.
  intros Hz.
  assert (Str.forallb is_digit (py_str z) = true) as Hd.
  { destruct z as [|p|p]; [done | apply str_N_digits | lia]. }
  unfold zfill. destruct (width <=? _)%nat; [done |].
  destruct (py_str z) as [|c rest]; [by apply string_forallb_repeat |].
  assert (is_sign c = false) as ->.
  { simpl in Hd. apply andb_true_iff in Hd as [Hc _]. by apply is_digit_no_sign. }
  by rewrite string_forallb_app, string_forallb_repeat, Hd.
Qed.

(** X8: for a batch that starts at a ticket [>= 0] the ticket numbers of
    the batch that [generate_participants] returns all have the same length
    and are in strictly ascending order as strings: sorting the lines of
    the file by ticket number keeps their order. *)
Theorem generate_participants_sorted (count start_ticket : Z) (w : World)
    (participants : list (gmap string string)) (w' : World) :
  0 <= start_ticket ->
  generate_participants count start_ticket w = (Returns participants, w') ->
  forall (i j : nat) ti tj,
    (i < j)%nat ->
    ticket_numbers participants !! i = Some (Some ti) ->
    ticket_numbers participants !! j = Some (Some tj) ->
    Str.length ti = Str.length tj /\ String.compare ti tj = Lt.
Proof.
  intros Hstart (_ & -> & _)%generate_participants_returns.
  rewrite ticket_numbers_batch_at. unfold range. rewrite map_map.
  set (width := Str.length (py_str (start_ticket + count - 1))).
  intros i j ti tj Hij Hi Hj.
  change (map ?f ?l) with (f <$> l) in Hi, Hj.
  apply list_lookup_fmap_Some in Hi as (i' & [= ->] & [Hi' Hilt]%lookup_seq).
  apply list_lookup_fmap_Some in Hj as (j' & [= ->] & [Hj' Hjlt]%lookup_seq).
  simpl in Hi', Hj'. subst i' j'.
  assert (forall k : nat, (k < Z.to_nat count)%nat ->
            Str.length (zfill (py_str (start_ticket + Z.of_nat k)) width) = width
            /\ digits_value 0 (zfill (py_str (start_ticket + Z.of_nat k)) width)
               = Some (start_ticket + Z.of_nat k)) as Hticket.
  { intros k Hk.
    assert (Str.length (zfill (py_str (start_ticket + Z.of_nat k)) width) = width)
      as Hlen.
    { rewrite length_zfill.
      assert (Str.length (py_str (start_ticket + Z.of_nat k)) <= width)%nat; [| lia].
      apply length_py_str_mono_0; lia. }
    split; [done |].
    rewrite <- ticket_value_digits, ticket_value_zfill; [done | |].
    - intros Hempty. rewrite Hempty in Hlen. simpl in Hlen.
      assert (1 <= width)%nat; [| lia]. unfold width.
      pose proof (length_py_str_mono_0 0 (start_ticket + count - 1)
                    ltac:(lia) ltac:(lia)) as Hone.
      exact Hone.
    - apply zfill_digits. lia. }
  destruct (Hticket i ltac:(lia)) as [Hli Hvi].
  destruct (Hticket j ltac:(lia)) as [Hlj Hvj].
  split; [congruence |].
  eapply digits_compare; [congruence | exact Hvi | exact Hvj | lia].
Qed.

Lemma generate_participants_sorted_witness :
  exists participants w',
    generate_participants 101 0 world0 = (Returns participants, w')
    /\ ticket_numbers participants !! 9%nat = Some (Some "009")
    /\ ticket_numbers participants !! 10%nat = Some (Some "010")
    /\ String.compare "009" "010" = Lt.
Proof.
  exists (batch_at world0 101 0), (advance (2 * Z.to_nat 101) world0).
  assert (generate_participants 101 0 world0
          = (Returns (batch_at world0 101 0), advance (2 * Z.to_nat 101) world0))
    as Hrun.
  { apply generate_participants_run. right. split; apply printable_small; lia. }
  split; [exact Hrun |].
  assert (ticket_numbers (batch_at world0 101 0) !! 9%nat = Some (Some "009")
          /\ ticket_numbers (batch_at world0 101 0) !! 10%nat = Some (Some "010"))
    as [H9 H10] by (vm_compute; split; reflexivity).
  split; [exact H9 |]. split; [exact H10 |].
  apply (generate_participants_sorted 101 0 world0 _ _ ltac:(lia) Hrun
           9%nat 10%nat "009" "010" ltac:(lia) H9 H10).
Defined.

End TicketOrder.

(** * Further properties of the serializer *)

Section SerializerExtras.

Lemma rfc4180_field_plain f :
  Str.existsb needs_quotes f = false -> rfc4180_field f = f.
Proof. intros Hf. unfold rfc4180_field. by rewrite Hf. Qed.

Lemma rfc4180_line_plain a b c :
  Str.existsb needs_quotes a = false ->
  Str.existsb needs_quotes b = false ->
  Str.existsb needs_quotes c = false ->
  rfc4180_line [a; b; c] = a +:+ "," +:+ b +:+ "," +:+ c +:+ lineterminator.
Proof.
  intros Ha Hb Hc. unfold rfc4180_line. simpl map.
  rewrite !rfc4180_field_plain by done.
  change (Str.join "," [a; b; c]) with (a +:+ "," +:+ b +:+ "," +:+ c).
  by rewrite !string_app_assoc.
Qed.

Lemma participant_at_plain_line w count start_ticket i :
  rfc4180_line (participant_fields (participant_at w count start_ticket i))
  = plain_line (participant_at w count start_ticket i).
Proof.
  unfold participant_fields, plain_line.
  rewrite participant_at_first, participant_at_last, participant_at_ticket.
  pose proof names_plain as [Hfirst Hlast]%Forall_app.
  apply rfc4180_line_plain.
  - rewrite <- field_quoted_needs_quotes. by apply pick_plain.
  - rewrite <- field_quoted_needs_quotes. by apply pick_plain.
  - rewrite <- field_quoted_needs_quotes. apply ticket_not_quoted.
Qed.

Lemma string_existsb_app f s t :
  Str.existsb f (s +:+ t) = Str.existsb f s || Str.existsb f t.
Proof.
  induction s as [|c s IH]; [done |].
  rewrite string_app_cons. simpl. by rewrite IH, orb_assoc.
Qed.

Lemma plain_no_quote s :
  Str.existsb needs_quotes s = false ->
  Str.existsb (fun c => Ascii.eqb c quotechar) s = false.
Proof.
  induction s as [|c s IH]; [done |]. simpl.
  intros [Hc Hs]%orb_false_iff. rewrite IH by done.
  by destruct (needs_quotes_false c Hc) as (_ & -> & _).
Qed.

Lemma participant_at_no_quote w count start_ticket i :
  Str.existsb (fun c => Ascii.eqb c quotechar)
    (plain_line (participant_at w count start_ticket i)) = false.
Proof.
  unfold plain_line.
  rewrite participant_at_first, participant_at_last, participant_at_ticket.
  pose proof names_plain as [Hfirst Hlast]%Forall_app.
  simpl default.
  set (first := pick first_names _). set (last := pick last_names _).
  set (ticket := zfill _ _).
  assert (Str.existsb (fun c => Ascii.eqb c quotechar) first = false) as Ha.
  { apply plain_no_quote. rewrite <- field_quoted_needs_quotes. by apply pick_plain. }
  assert (Str.existsb (fun c => Ascii.eqb c quotechar) last = false) as Hb.
  { apply plain_no_quote. rewrite <- field_quoted_needs_quotes. by apply pick_plain. }
  assert (Str.existsb (fun c => Ascii.eqb c quotechar) ticket = false) as Hc.
  { apply plain_no_quote. rewrite <- field_quoted_needs_quotes.
    apply ticket_not_quoted. }
  rewrite !string_existsb_app, Ha, Hb, Hc. reflexivity.
Qed.

(** The file of a batch: plain lines, and no quote character. *)
Lemma csv_text_batch_at w count start_ticket :
  csv_text (batch_at w count start_ticket)
  = ("first,last,ticket_number" +:+ lineterminator)
    +:+ Str.concat (map plain_line (batch_at w count start_ticket))
  /\ Str.existsb (fun c => Ascii.eqb c quotechar)
       (csv_text (batch_at w count start_ticket)) = false.
Proof.
  assert (csv_text (batch_at w count start_ticket)
          = ("first,last,ticket_number" +:+ lineterminator)
            +:+ Str.concat (map plain_line (batch_at w count start_ticket)))
    as Htext.
  { unfold csv_text. simpl Str.concat. do 2 f_equal.
    unfold batch_at. rewrite !map_map.
    apply map_ext. intros i. apply participant_at_plain_line. }
  split; [exact Htext |]. rewrite Htext, string_existsb_app.
  change (Str.existsb _ ("first,last,ticket_number" +:+ lineterminator)) with false.
  unfold batch_at. rewrite map_map.
  induction (seq 0 (Z.to_nat count)) as [|i l IH]; [done |].
  simpl map. simpl Str.concat.
  by rewrite string_existsb_app, participant_at_no_quote, IH.
Qed.

(** X2: writing a batch that [generate_participants] has returned never
    raises, whatever [count], [start_ticket] and the random values (and
    [generate_participants] returns whenever [str] converts the ticket
    numbers).  The file is the header line followed by one line
    [first,last,ticket_number] per record, in order; it contains no quote
    character; the line printed for the operator names the file and the
    number of records. *)
Theorem generate_write_plain (count start_ticket : Z) (filename : string)
    (w : World) :
  (printable_range count start_ticket ->
   exists participants w1,
     generate_participants count start_ticket w = (Returns participants, w1))
  /\ forall participants w1,
       generate_participants count start_ticket w = (Returns participants, w1) ->
       exists w' text,
         write_csv filename participants w1 = (Returns tt, w')
         /\ files w' !! filename = Some text
         /\ text = ("first,last,ticket_number" +:+ lineterminator)
                   +:+ Str.concat (map plain_line participants)
         /\ Str.existsb (fun c => Ascii.eqb c quotechar) text = false
         /\ stdout w'
            = stdout w ++ [ "✅ Generated " +:+ filename +:+ ": "
                            +:+ format_thousands (Z.to_nat count) +:+ " entries" ].
Proof.
  split; [intros Hfits; do 2 eexists; by apply generate_participants_run |].
  intros participants w1 (_ & -> & ->)%generate_participants_returns.
  destruct (csv_text_batch_at w count start_ticket) as [Htext Hquote].
  do 2 eexists. split; [apply write_csv_run, batch_at_writable |].
  unfold printed, written, advance. cbn [files stdout].
  rewrite lookup_insert_eq, length_batch_at. done.
Qed.

Lemma generate_write_plain_witness :
  exists participants w1 w' text,
    generate_participants 2 99 world0 = (Returns participants, w1)
    /\ write_csv "t.csv" participants w1 = (Returns tt, w')
    /\ files w' !! "t.csv" = Some text
    /\ text = "first,last,ticket_number" +:+ lineterminator
              +:+ "Patricia,Hernandez,099" +:+ lineterminator
              +:+ "Sarah,Harris,100" +:+ lineterminator.
Proof.
  destruct (generate_write_plain 2 99 "t.csv" world0) as [Hreturns Hwrite].
  destruct Hreturns as (ps & w1 & Hrun).
  { right. split; apply printable_small; lia. }
  destruct (Hwrite ps w1 Hrun) as (w' & text & Hw & Hfile & Htext & _).
  exists ps, w1, w', text.
  split; [exact Hrun |]. split; [exact Hw |]. split; [exact Hfile |].
  apply generate_participants_returns in Hrun as (_ & -> & _).
  rewrite Htext. vm_compute. reflexivity.
Defined.

Lemma accepted_app_bad good bad rest :
  Forall writable good -> ~ writable bad ->
  accepted (good ++ bad :: rest) = good.
Proof.
  intros Hgood Hbad. induction Hgood as [|p ps Hp Hps IH]; simpl.
  - by destruct (decide (writable bad)).
  - destruct (decide (writable p)); [by rewrite IH | done].
Qed.

(** X3: a record with a key that is no field name makes [write_csv] raise
    [ValueError].  The file then holds the header and the lines of the
    records in front of that record, nothing is printed, and the other
    files are as before. *)
Theorem write_csv_foreign_key (filename : string)
    (good rest : list (gmap string string)) (bad : gmap string string)
    (w : World) :
  Forall writable good -> ~ writable bad ->
  exists w',
    write_csv filename (good ++ bad :: rest) w = (Raises ValueError, w')
    /\ files w' !! filename
       = Some (("first,last,ticket_number" +:+ lineterminator)
               +:+ Str.concat (map (fun p => rfc4180_line (participant_fields p))
                                   good))
    /\ stdout w' = stdout w
    /\ forall other, other <> filename -> files w' !! other = files w !! other.
Proof.
  intros Hgood Hbad. eexists. split.
  - apply write_csv_raises. intros [_ Hall]%Forall_app.
    by inversion Hall.
  - rewrite accepted_app_bad by done.
    unfold written. cbn [files stdout].
    split; [by rewrite lookup_insert_eq |]. split; [done |].
    intros other Hother. by rewrite lookup_insert_ne.
Qed.

Lemma write_csv_foreign_key_witness :
  exists w',
    write_csv "t.csv"
      ([ {[ "first" := "Ann"; "last" := "Lee" ]} ]
       ++ {[ "first" := "Bob"; "age" := "7" ]} :: [ {[ "first" := "Eve" ]} ])
      world0
    = (Raises ValueError, w')
    /\ files w' !! "t.csv"
       = Some ("first,last,ticket_number" +:+ lineterminator
               +:+ "Ann,Lee," +:+ lineterminator)
    /\ stdout w' = [].
Proof.
  destruct (write_csv_foreign_key "t.csv"
              [ {[ "first" := "Ann"; "last" := "Lee" ]} ]
              [ {[ "first" := "Eve" ]} ]
              {[ "first" := "Bob"; "age" := "7" ]} world0)
    as (w' & Hrun & Hfile & Hout & _).
  - constructor; [| constructor].
    unfold writable. rewrite dom_insert_L, dom_singleton_L. set_solver.
  - unfold writable. rewrite dom_insert_L, dom_singleton_L.
    intros Hsub. specialize (Hsub "age"). set_solver.
  - exists w'. split; [exact Hrun |]. split; [| exact Hout].
    rewrite Hfile. reflexivity.
Defined.

Lemma same_fields_refl p : same_fields p p.
Proof. by split. Qed.

Lemma same_fields_accepted ps qs :
  Forall2 same_fields ps qs ->
  map participant_fields (accepted ps) = map participant_fields (accepted qs)
  /\ (Forall writable ps <-> Forall writable qs).
Proof.
  induction 1 as [|p q ps qs [Hw Hf] Hrest [IHf IHw]]; [done |].
  simpl. split.
  - destruct (decide (writable p)) as [Hp|Hp];
      destruct (decide (writable q)) as [Hq|Hq]; try tauto.
    simpl. by rewrite Hf, IHf.
  - rewrite !Forall_cons. tauto.
Qed.

(** [write_csv] sees of a record only what [same_fields] compares. *)
Lemma write_csv_same_fields filename ps qs w :
  Forall2 same_fields ps qs ->
  write_csv filename ps w = write_csv filename qs w.
Proof.
  intros Hsame. pose proof (Forall2_length _ _ _ Hsame) as Hlen.
  destruct (same_fields_accepted ps qs Hsame) as [Hfields Hiff].
  assert (csv_text (accepted ps) = csv_text (accepted qs)) as Htext.
  { unfold csv_text. do 2 f_equal.
    rewrite <- (map_map participant_fields rfc4180_line (accepted ps)).
    rewrite <- (map_map participant_fields rfc4180_line (accepted qs)).
    by rewrite Hfields. }
  destruct (decide (Forall writable ps)) as [Hps|Hps].
  - pose proof (proj1 Hiff Hps) as Hqs.
    rewrite !write_csv_run by done.
    rewrite <- (accepted_writable ps), <- (accepted_writable qs) by done.
    by rewrite Htext, !accepted_writable, Hlen by done.
  - assert (~ Forall writable qs) as Hqs by tauto.
    rewrite !write_csv_raises by done. by rewrite Htext.
Qed.

(** X4: a key that a record lacks is written as an empty field: the record
    with the key set to the empty string gives the same file, the same
    printed line and the same outcome. *)
Theorem write_csv_missing_key (filename key : string)
    (before after : list (gmap string string)) (p : gmap string string)
    (w : World) :
  key ∈ fieldnames -> p !! key = None ->
  write_csv filename (before ++ p :: after) w
  = write_csv filename (before ++ <[key := EmptyString]> p :: after) w.
Proof.
  intros Hkey Hnone. apply write_csv_same_fields.
  apply Forall2_app; [apply Forall_Forall2_diag, Forall_forall;
                      intros; apply same_fields_refl |].
  constructor; [| apply Forall_Forall2_diag, Forall_forall;
                  intros; apply same_fields_refl].
  split.
  - unfold writable. rewrite dom_insert_L.
    unfold fieldnames in Hkey. set_solver.
  - assert (forall k, default EmptyString (p !! k)
                      = default EmptyString (<[key := EmptyString]> p !! k)) as Hk.
    { intros k. destruct (decide (key = k)) as [->|Hne].
      - by rewrite Hnone, lookup_insert_eq.
      - by rewrite lookup_insert_ne. }
    unfold participant_fields. by rewrite <- !Hk.
Qed.

Lemma write_csv_missing_key_witness :
  write_csv "t.csv" ([] ++ {[ "first" := "Ann" ]} :: []) world0
  = write_csv "t.csv"
      ([] ++ <["last" := EmptyString]> {[ "first" := "Ann" ]} :: []) world0.
Proof.
  apply (write_csv_missing_key "t.csv" "last" [] [] {[ "first" := "Ann" ]} world0).
  - unfold fieldnames. set_solver.
  - reflexivity.
Defined.

(** X5: [write_csv] replaces the file: what the file held before has no
    influence on the result. *)
Theorem write_csv_overwrites (filename old : string)
    (participants : list (gmap string string)) (w : World) :
  write_csv filename participants (written w filename old)
  = write_csv filename participants w.
Proof.
  unfold write_csv.
  assert (open_w filename (written w filename old)
          = (Returns tt, written w filename EmptyString)) as Hopen.
  { unfold open_w, written. cbn [tape cursor files stdout].
    by rewrite insert_insert_eq. }
  erewrite bind_returns by exact Hopen.
  by erewrite (bind_returns (open_w filename) _ w) by apply open_w_run.
Qed.

Lemma read_back_record p : participant_record p -> read_back p = p.
Proof.
  unfold participant_record. intros Hdom.
  assert (forall k, k ∈ ({["first"; "last"; "ticket_number"]} : gset string) ->
                    is_Some (p !! k)) as Hsome.
  { intros k Hk. apply elem_of_dom. by rewrite Hdom. }
  destruct (Hsome "first" ltac:(set_solver)) as [a Ha].
  destruct (Hsome "last" ltac:(set_solver)) as [b Hb].
  destruct (Hsome "ticket_number" ltac:(set_solver)) as [c Hc].
  unfold read_back, participant_fields, dict. rewrite Ha, Hb, Hc. simpl.
  apply map_eq. intros k.
  destruct (decide (k = "ticket_number")) as [->|H3]; [by simplify_map_eq |].
  destruct (decide (k = "last")) as [->|H2]; [by simplify_map_eq |].
  destruct (decide (k = "first")) as [->|H1]; [by simplify_map_eq |].
  rewrite !lookup_insert_ne, lookup_empty by done.
  symmetry. apply not_elem_of_dom. rewrite Hdom. set_solver.
Qed.

Lemma participant_record_writable p : participant_record p -> writable p.
Proof. unfold participant_record, writable. by intros ->. Qed.

Lemma write_csv_read_back_run filename participants w :
  Forall participant_record participants ->
  exists w' text,
    write_csv filename participants w = (Returns tt, w')
    /\ files w' !! filename = Some text
    /\ DictReader text = Some participants.
Proof.
  intros Hall.
  assert (Forall writable participants) as Hw.
  { eapply Forall_impl; [exact Hall | apply participant_record_writable]. }
  do 2 eexists. split; [by apply write_csv_run |].
  split; [unfold printed, written; cbn [files]; by rewrite lookup_insert_eq |].
  rewrite DictReader_csv_text. f_equal.
  induction Hall as [|p ps Hp Hps IH]; [done |].
  simpl. rewrite read_back_record by done. f_equal. apply IH.
  by inversion Hw.
Qed.

(** X9: records with exactly the three keys come back from the file as
    they were written: reading the file that [write_csv] has written gives
    the list of records itself, fields with commas, quotes or line breaks
    included. *)
Theorem write_csv_read_back (filename : string)
    (participants : list (gmap string string)) (w : World) :
  Forall participant_record participants ->
  exists w' text,
    write_csv filename participants w = (Returns tt, w')
    /\ files w' !! filename = Some text
    /\ DictReader text = Some participants.
Proof.
  intros Hall.
  assert (Forall writable participants) as Hw.
  { eapply Forall_impl; [exact Hall | apply participant_record_writable]. }
  do 2 eexists. split; [by apply write_csv_run |].
  split; [unfold printed, written; cbn [files]; by rewrite lookup_insert_eq |].
  rewrite DictReader_csv_text. f_equal.
  clear Hw. induction Hall as [|p ps Hp Hps IH]; [done |].
  simpl. by rewrite read_back_record, IH.
Qed.

Lemma write_csv_read_back_witness :
  exists w' text,
    write_csv "t.csv"
      [ {[ "first" := "a,b"; "last" := String quotechar (String LF "x");
           "ticket_number" := "007" ]} ] world0
    = (Returns tt, w')
    /\ files w' !! "t.csv" = Some text
    /\ DictReader text
       = Some [ {[ "first" := "a,b"; "last" := String quotechar (String LF "x");
                   "ticket_number" := "007" ]} ].
Proof.
  apply (write_csv_read_back "t.csv"
           [ {[ "first" := "a,b"; "last" := String quotechar (String LF "x");
                "ticket_number" := "007" ]} ] world0).
  constructor; [| constructor].
  unfold participant_record. by rewrite !dom_insert_L, dom_singleton_L.
Defined.

(** X10: every record of a batch that [generate_participants] returns has
    exactly the keys [first], [last] and [ticket_number], so the file of
    the batch reads back as the batch itself. *)
Theorem generate_write_read_back (count start_ticket : Z) (filename : string)
    (w : World) (participants : list (gmap string string)) (w1 : World) :
  generate_participants count start_ticket w = (Returns participants, w1) ->
  Forall participant_record participants
  /\ exists w' text,
       write_csv filename participants w1 = (Returns tt, w')
       /\ files w' !! filename = Some text
       /\ DictReader text = Some participants.
Proof.
  intros (_ & -> & ->)%generate_participants_returns.
  assert (Forall participant_record (batch_at w count start_ticket)) as Hall.
  { apply Forall_forall. intros p Hp.
    apply list_elem_of_In, in_map_iff in Hp as (i & <- & _).
    apply participant_at_record. }
  split; [exact Hall |]. by apply write_csv_read_back_run.
Qed.

Lemma generate_write_read_back_witness :
  exists participants w1 w' text,
    generate_participants 3 8 world0 = (Returns participants, w1)
    /\ write_csv "t.csv" participants w1 = (Returns tt, w')
    /\ files w' !! "t.csv" = Some text
    /\ DictReader text = Some participants.
Proof.
  assert (generate_participants 3 8 world0
          = (Returns (batch_at world0 3 8), advance (2 * Z.to_nat 3) world0))
    as Hrun.
  { apply generate_participants_run. right. split; apply printable_small; lia. }
  destruct (generate_write_read_back 3 8 "t.csv" world0 _ _ Hrun)
    as (_ & w' & text & Hw & Hfile & Hread).
  exists (batch_at world0 3 8), (advance (2 * Z.to_nat 3) world0), w', text.
  split; [exact Hrun |]. split; [exact Hw |]. split; [exact Hfile | exact Hread].
Defined.

End SerializerExtras.

(** * Further properties of the batch driver *)

Section DriverExtras.

Lemma tape_printed w msg : tape (printed w msg) = tape w.
Proof. reflexivity. Qed.

Lemma cursor_printed w msg : cursor (printed w msg) = cursor w.
Proof. reflexivity. Qed.

Lemma tape_after_batches table w : tape (foldl after_batch w table) = tape w.
Proof.
  revert w. induction table as [|[[name count] start_ticket] table IH]; intros w;
    [done |].
  change (foldl after_batch w ((name, count, start_ticket) :: table))
    with (foldl after_batch (after_batch w (name, count, start_ticket)) table).
  by rewrite IH.
Qed.

Lemma cursor_after_batches table w :
  Z.of_nat (cursor (foldl after_batch w table))
  = Z.of_nat (cursor w)
    + 2 * foldr Z.add 0 (map (fun batch : string * Z * Z => Z.max 0 batch.1.2) table).
Proof.
  revert w. induction table as [|[[name count] start_ticket] table IH]; intros w.
  - simpl. lia.
  - change (foldl after_batch w ((name, count, start_ticket) :: table))
      with (foldl after_batch (after_batch w (name, count, start_ticket)) table).
    rewrite IH. unfold after_batch, printed, written, advance.
    cbn [cursor map foldr fst snd]. lia.
Qed.

Lemma dom_files_after_batches table w :
  dom (files (foldl after_batch w table))
  = dom (files w)
    ∪ list_to_set (map (fun batch : string * Z * Z => batch.1.1) table).
Proof.
  revert w. induction table as [|[[name count] start_ticket] table IH]; intros w.
  - simpl. set_solver.
  - change (foldl after_batch w ((name, count, start_ticket) :: table))
      with (foldl after_batch (after_batch w (name, count, start_ticket)) table).
    rewrite IH. unfold after_batch, printed, written, advance.
    cbn [files map list_to_set fst snd]. rewrite dom_insert_L. set_solver.
Qed.

Lemma batches_total :
  foldr Z.add 0 (map (fun batch : string * Z * Z => Z.max 0 batch.1.2) batches)
  = 190000.
Proof. reflexivity. Qed.

(** X11: the footprint of [main].  It returns, has consumed 380000 random
    values (two per record of the five batches), has created or replaced
    the five configured files and has touched no other file. *)
Theorem main_footprint (w : World) :
  exists w',
    main w = (Returns tt, w')
    /\ tape w' = tape w
    /\ Z.of_nat (cursor w') = Z.of_nat (cursor w) + 380000
    /\ dom (files w')
       = dom (files w)
         ∪ {[ "raffle-5k.csv"; "raffle-10k.csv"; "raffle-25k.csv";
              "raffle-50k.csv"; "raffle-100k.csv" ]}
    /\ forall other,
         other ∉ [ "raffle-5k.csv"; "raffle-10k.csv"; "raffle-25k.csv";
                   "raffle-50k.csv"; "raffle-100k.csv" ] ->
         files w' !! other = files w !! other.
Proof.
  eexists. split; [apply main_run |].
  rewrite !tape_printed, !cursor_printed, !files_printed.
  split; [apply tape_after_batches |].
  split; [rewrite cursor_after_batches, batches_total; lia |].
  split.
  - rewrite dom_files_after_batches. by f_equal.
  - intros other Hother. by apply files_after_batches_other.
Qed.

Lemma main_footprint_witness :
  exists w',
    main world0 = (Returns tt, w')
    /\ Z.of_nat (cursor w') = 380000
    /\ files w' !! "notes.txt" = None.
Proof.
  destruct (main_footprint world0) as (w' & Hrun & _ & Hcursor & _ & Hother).
  exists w'. split; [exact Hrun |]. split; [exact Hcursor |].
  rewrite (Hother "notes.txt"); [reflexivity |].
  intros Hin. repeat (apply elem_of_cons in Hin as [Hin|Hin]; [discriminate |]).
  by apply elem_of_nil in Hin.
Defined.



End DriverExtras.
